(** * HTML Processor v2.0 (master_v2.py): a shallow embedding and its properties

    Python values are modelled as follows.
    - [str] is [string]; a character is its code point, restricted to the
      range 0..255 (the character tables below are Python's own on that
      range).
    - [bytes] is [list Z], every element in 0..255.
    - [None] / a value is [option]; a raised exception is [Raise] of the
      [result] type.
    - a BeautifulSoup tree is the rose tree [node]; a tree mutated in place
      is threaded through the functions as a value. *)

From Stdlib Require Import String Ascii List ZArith Bool Arith Lia.
Import ListNotations.
Set Warnings "-register-all".
Local Open Scope string_scope.
Local Open Scope list_scope.
Local Open Scope nat_scope.

(* ================================================================== *)
(** * Python strings *)
(* ================================================================== *)

Module Py.

Definition code (c : ascii) : nat := nat_of_ascii c.

Definition between (lo hi : nat) (c : ascii) : bool :=
  (lo <=? code c) && (code c <=? hi).

Definition is_upper (c : ascii) : bool := between 65 90 c.
Definition is_lower (c : ascii) : bool := between 97 122 c.
Definition is_digit (c : ascii) : bool := between 48 57 c.

(** [str.isspace], which is also what [str.strip()] removes and what the
    [re] module's [\s] matches on a [str] pattern. *)
Definition isspace (c : ascii) : bool :=
  between 9 13 c || between 28 32 c || (code c =? 133) || (code c =? 160).

(** The [re] module's [\w] on a [str] pattern: alphanumeric or underscore. *)
Definition isword (c : ascii) : bool :=
  is_digit c || is_upper c || is_lower c || (code c =? 95)
  || (code c =? 170) || (code c =? 178) || (code c =? 179) || (code c =? 181)
  || (code c =? 185) || (code c =? 186) || between 188 190 c
  || between 192 214 c || between 216 246 c || between 248 255 c.

(** [str.lower()] on one character. *)
Definition lower_char (c : ascii) : ascii :=
  if is_upper c || between 192 214 c || between 216 222 c
  then ascii_of_nat (code c + 32) else c.

Fixpoint lower (s : string) : string :=
  match s with
  | EmptyString => EmptyString
  | String c s' => String (lower_char c) (lower s')
  end.

Fixpoint rev_onto (s acc : string) : string :=
  match s with
  | EmptyString => acc
  | String c s' => rev_onto s' (String c acc)
  end.

Definition rev (s : string) : string := rev_onto s EmptyString.

Fixpoint lstrip (s : string) : string :=
  match s with
  | String c s' => if isspace c then lstrip s' else s
  | EmptyString => EmptyString
  end.

Definition rstrip (s : string) : string := rev (lstrip (rev s)).

(** [s.strip()] *)
Definition strip (s : string) : string := rstrip (lstrip s).

(** [s.startswith(p)] *)
Fixpoint startswith (p s : string) : bool :=
  match p, s with
  | EmptyString, _ => true
  | String a p', String b s' => Ascii.eqb a b && startswith p' s'
  | String _ _, EmptyString => false
  end.

(** [p in s] for two strings: [p] occurs in [s]. *)
Fixpoint contains (p s : string) : bool :=
  startswith p s ||
  match s with
  | EmptyString => false
  | String _ s' => contains p s'
  end.

(** [sep.join(l)] *)
Fixpoint join (sep : string) (l : list string) : string :=
  match l with
  | [] => EmptyString
  | [x] => x
  | x :: rest => (x ++ sep ++ join sep rest)%string
  end.

(** [c * n] for a one-character string [c]. *)
Fixpoint repeat_char (c : ascii) (n : nat) : string :=
  match n with
  | O => EmptyString
  | S n' => String c (repeat_char c n')
  end.

Fixpoint filter (p : ascii -> bool) (s : string) : string :=
  match s with
  | EmptyString => EmptyString
  | String c s' => if p c then String c (filter p s') else filter p s'
  end.

Fixpoint forallb (p : ascii -> bool) (s : string) : bool :=
  match s with
  | EmptyString => true
  | String c s' => p c && forallb p s'
  end.

(** [s[:n]] *)
Fixpoint take (n : nat) (s : string) : string :=
  match n, s with
  | S n', String c s' => String c (take n' s')
  | _, _ => EmptyString
  end.

(** [s[n:]] *)
Fixpoint drop (n : nat) (s : string) : string :=
  match n, s with
  | S n', String _ s' => drop n' s'
  | _, _ => s
  end.

(** The double quote, as a one-character string. *)
Definition dquote : string := String (ascii_of_nat 34) EmptyString.

(** The line feed. *)
Definition LF : ascii := ascii_of_nat 10.

Definition digit_char (d : Z) : ascii := ascii_of_nat (48 + Z.to_nat d).

Fixpoint digits_onto (fuel : nat) (n : Z) (acc : string) : string :=
  match fuel with
  | O => acc
  | S fuel' =>
      let acc' := String (digit_char (n mod 10)) acc in
      if n / 10 =? 0 then acc' else digits_onto fuel' (n / 10) acc'
  end%Z.

(** [str(n)] for an [int]: decimal digits, a leading minus when negative. *)
Definition str_of_int (n : Z) : string :=
  let a := Z.abs n in
  let ds := digits_onto (S (Z.to_nat (Z.log2 a))) a EmptyString in
  if (n <? 0)%Z then String "-" ds else ds.

(** White space as [int()] accepts it around a literal. *)
Definition int_space (c : ascii) : bool :=
  between 9 13 c || (code c =? 32) || (code c =? 133) || (code c =? 160).

(** Digits of an [int()] literal: groups of digits, one underscore at most
    between two digits.  [prev] tells whether the previous character was a
    digit; [acc] is the value read so far. *)
Fixpoint int_digits (s : string) (prev : bool) (acc : Z) : option Z :=
  match s with
  | EmptyString => if prev then Some acc else None
  | String c s' =>
      if is_digit c then int_digits s' true (10 * acc + Z.of_nat (code c - 48))%Z
      else if (code c =? 95) && prev then
        match s' with
        | String d _ => if is_digit d then int_digits s' false acc else None
        | EmptyString => None
        end
      else None
  end.

Definition lstrip_int (s : string) : string :=
  (fix go (s : string) : string :=
     match s with
     | String c s' => if int_space c then go s' else s
     | EmptyString => EmptyString
     end) s.

(** The default of [sys.int_max_str_digits]: [int()] refuses a literal
    with more digits, whatever its value (leading zeros count, underscores
    do not). *)
Definition int_max_str_digits : nat := 4300.

Definition int_literal (t : string) : option Z :=
  if String.length (filter is_digit t) <=? int_max_str_digits
  then int_digits t false 0%Z
  else None.

(** [int(s)] for a [str]: [None] stands for [ValueError]. *)
Definition int_of_str (s : string) : option Z :=
  let t := rev (lstrip_int (rev (lstrip_int s))) in
  match t with
  | String "-" t' => option_map Z.opp (int_literal t')
  | String "+" t' => int_literal t'
  | _ => int_literal t
  end.

End Py.

(* ================================================================== *)
(** * The regular expressions the program uses ([re] module) *)
(* ================================================================== *)

Module Re.

(** Patterns.  Every repetition in the program's patterns is over a single
    character class, so [Rep] is the only iteration: [Rep p lo true] is the
    greedy [p{lo,}], [Rep p lo false] the lazy [p{lo,}?]. *)
Inductive regex : Type :=
| Chr (p : ascii -> bool)
| Lit (s : string)
| Rep (p : ascii -> bool) (lo : nat) (greedy : bool)
| Cat (r1 r2 : regex)
| Alt (r1 r2 : regex)
| NotAhead (r : regex)
| Grp (n : nat) (r : regex).

(** The text of the numbered groups that took part in a match. *)
Definition groups : Type := list (nat * string).

Fixpoint group (n : nat) (g : groups) : option string :=
  match g with
  | [] => None
  | (m, s) :: g' => if n =? m then Some s else group n g'
  end.

Definition any_char (c : ascii) : bool := true.
(** [.] without DOTALL: anything but a line feed. *)
Definition dot (c : ascii) : bool := negb (Ascii.eqb c Py.LF).
Definition just (a : ascii) (c : ascii) : bool := Ascii.eqb a c.
Definition non (p : ascii -> bool) (c : ascii) : bool := negb (p c).
Definition either (p q : ascii -> bool) (c : ascii) : bool := p c || q c.

Section Matcher.

Context {R : Type}.

(** Strip a literal prefix. *)
Fixpoint lit (p s : string) : option string :=
  match p, s with
  | EmptyString, _ => Some s
  | String a p', String b s' => if Ascii.eqb a b then lit p' s' else None
  | String _ _, EmptyString => None
  end.

(** Greedy repetition: take a character while the class allows, and fall
    back to stopping here when the rest of the pattern fails further on. *)
Fixpoint rep_greedy (p : ascii -> bool) (lo : nat) (s : string)
         (k : string -> option R) : option R :=
  let stop := if lo =? 0 then k s else None in
  match s with
  | String c s' =>
      if p c then
        match rep_greedy p (pred lo) s' k with
        | Some r => Some r
        | None => stop
        end
      else stop
  | EmptyString => stop
  end.

(** Lazy repetition: stop as soon as the rest of the pattern matches. *)
Fixpoint rep_lazy (p : ascii -> bool) (lo : nat) (s : string)
         (k : string -> option R) : option R :=
  match (if lo =? 0 then k s else None) with
  | Some r => Some r
  | None =>
      match s with
      | String c s' => if p c then rep_lazy p (pred lo) s' k else None
      | EmptyString => None
      end
  end.

End Matcher.

(** The text [s] lost on the way to its suffix [rest]. *)
Definition consumed (s rest : string) : string :=
  Py.take (String.length s - String.length rest) s.

(** Backtracking match of [r] at the start of [s], in continuation-passing
    style: [k] is the rest of the pattern, given the unread input and the
    groups so far.  The order of the alternatives is the [re] module's. *)
Fixpoint run (r : regex) {R : Type} (s : string) (g : groups)
         (k : string -> groups -> option R) : option R :=
  match r with
  | Chr p =>
      match s with
      | String c s' => if p c then k s' g else None
      | EmptyString => None
      end
  | Lit l =>
      match lit l s with
      | Some s' => k s' g
      | None => None
      end
  | Rep p lo true => rep_greedy p lo s (fun s' => k s' g)
  | Rep p lo false => rep_lazy p lo s (fun s' => k s' g)
  | Cat r1 r2 => run r1 s g (fun s' g' => run r2 s' g' k)
  | Alt r1 r2 =>
      match run r1 s g k with
      | Some x => Some x
      | None => run r2 s g k
      end
  | NotAhead r' =>
      match run r' s g (fun _ _ => Some tt) with
      | Some _ => None
      | None => k s g
      end
  | Grp n r' => run r' s g (fun s' g' => k s' ((n, consumed s s') :: g'))
  end.

(** One match: the matched text (group 0) and the numbered groups. *)
Record hit : Type := { whole : string; grps : groups }.

(** [re.match(r, s)]: a match at the start of [s], or [None]. *)
Definition rmatch (r : regex) (s : string) : option hit :=
  run r s [] (fun rest g => Some {| whole := consumed s rest; grps := g |}).

(** A text cut at the matches of a pattern. *)
Inductive piece : Type :=
| Plain (c : ascii)
| Found (h : hit).

(** Leftmost, non-overlapping matches, as [re.sub] and [re.finditer] find
    them: try each position in turn; after a match resume where it ended.
    [skip] counts the characters of the current match still to pass over. *)
Fixpoint scan (r : regex) (skip : nat) (s : string) : list piece :=
  match skip with
  | S n =>
      match s with
      | String _ s' => scan r n s'
      | EmptyString => []
      end
  | O =>
      match rmatch r s with
      | Some h =>
          match String.length (whole h), s with
          | S n, String _ s' => Found h :: scan r n s'
          | O, String c s' => Found h :: Plain c :: scan r 0 s'
          | _, EmptyString => [Found h]
          end
      | None =>
          match s with
          | String c s' => Plain c :: scan r 0 s'
          | EmptyString => []
          end
      end
  end.

Definition render (repl : hit -> string) (p : piece) : string :=
  match p with
  | Plain c => String c EmptyString
  | Found h => repl h
  end.

(** [re.sub(r, repl, s)] with a function [repl] of the match. *)
Definition sub (r : regex) (repl : hit -> string) (s : string) : string :=
  String.concat EmptyString (map (render repl) (scan r 0 s)).

End Re.

(* ================================================================== *)
(** * Utilities: safe_b64decode *)
(* ================================================================== *)

(** A byte string. *)
Definition bytes : Type := list Z.

Module Base64.

(** The value of a character of the base64 alphabet (the [table_a2b_base64]
    of [binascii]); [None] for every other character. *)
Definition value (c : ascii) : option Z :=
  let n := Py.code c in
  if Py.is_upper c then Some (Z.of_nat (n - 65))
  else if Py.is_lower c then Some (Z.of_nat (n - 97 + 26))
  else if Py.is_digit c then Some (Z.of_nat (n - 48 + 52))
  else if n =? 43 then Some 62%Z
  else if n =? 47 then Some 63%Z
  else None.

(** What is stored into an [unsigned char]. *)
Definition u8 (x : Z) : Z := Z.land x 255.

(** The loop of [binascii.a2b_base64] in its default, non-strict mode:
    [quad_pos] is the position in the current group of four, [leftchar] the
    bits left over, [pads] the pad characters seen in a row, [out] the bytes
    produced, last first.  [None] is [binascii.Error]. *)
Fixpoint a2b_loop (s : string) (quad_pos : nat) (leftchar : Z) (pads : nat)
         (out : bytes) : option bytes :=
  match s with
  | EmptyString => if quad_pos =? 0 then Some (List.rev out) else None
  | String c s' =>
      if Ascii.eqb c "=" then
        if (2 <=? quad_pos) && (4 <=? quad_pos + S pads)
        then Some (List.rev out)
        else a2b_loop s' quad_pos leftchar
                      (if 2 <=? quad_pos then S pads else pads) out
      else
        match value c with
        | None => a2b_loop s' quad_pos leftchar pads out
        | Some v =>
            match quad_pos with
            | 0 => a2b_loop s' 1 v 0 out
            | 1 => a2b_loop s' 2 (Z.land v 15) 0
                     (u8 (Z.lor (Z.shiftl leftchar 2) (Z.shiftr v 4)) :: out)
            | 2 => a2b_loop s' 3 (Z.land v 3) 0
                     (u8 (Z.lor (Z.shiftl leftchar 4) (Z.shiftr v 2)) :: out)
            | _ => a2b_loop s' 0 0%Z 0
                     (u8 (Z.lor (Z.shiftl leftchar 6) v) :: out)
            end
        end
  end.

(** [base64.b64decode(s)] for a [str] of ASCII characters. *)
Definition b64decode (s : string) : option bytes := a2b_loop s 0 0%Z 0 [].

End Base64.

(** The characters [safe_b64decode] keeps: the class [[A-Za-z0-9+/=]]. *)
Definition b64_alphabet (c : ascii) : bool :=
  Py.is_upper c || Py.is_lower c || Py.is_digit c
  || Re.just "+" c || Re.just "/" c || Re.just "=" c.

(** The padding step: [data += '=' * (4 - missing_padding)]. *)
Definition pad4 (data : string) : string :=
  let missing_padding := String.length data mod 4 in
  if missing_padding =? 0 then data
  else (data ++ Py.repeat_char "=" (4 - missing_padding))%string.

(** [safe_b64decode]: [None] is the [except] branch. *)
Definition safe_b64decode (data : string) : option bytes :=
  let data := Py.strip data in
  let data := Re.sub (Re.Chr (Re.non b64_alphabet)) (fun _ => EmptyString) data in
  let data := pad4 data in
  Base64.b64decode data.

(* ================================================================== *)
(** * hashlib.md5 *)
(* ================================================================== *)

Module MD5.

Local Open Scope Z_scope.

Definition w32 (x : Z) : Z := x mod 2 ^ 32.

Definition rotl (x : Z) (n : Z) : Z :=
  w32 (Z.lor (Z.shiftl x n) (Z.shiftr x (32 - n))).

Definition not32 (x : Z) : Z := Z.lxor x 4294967295.

(** The per-round shift amounts. *)
Definition shifts : list Z :=
  [7; 12; 17; 22; 7; 12; 17; 22; 7; 12; 17; 22; 7; 12; 17; 22;
   5; 9; 14; 20; 5; 9; 14; 20; 5; 9; 14; 20; 5; 9; 14; 20;
   4; 11; 16; 23; 4; 11; 16; 23; 4; 11; 16; 23; 4; 11; 16; 23;
   6; 10; 15; 21; 6; 10; 15; 21; 6; 10; 15; 21; 6; 10; 15; 21].

(** The constants [floor(2^32 * abs(sin(i + 1)))]. *)
Definition K : list Z :=
  [
   3614090360; 3905402710; 606105819; 3250441966; 4118548399; 1200080426;
   2821735955; 4249261313; 1770035416; 2336552879; 4294925233; 2304563134;
   1804603682; 4254626195; 2792965006; 1236535329; 4129170786; 3225465664;
   643717713; 3921069994; 3593408605; 38016083; 3634488961; 3889429448;
   568446438; 3275163606; 4107603335; 1163531501; 2850285829; 4243563512;
   1735328473; 2368359562; 4294588738; 2272392833; 1839030562; 4259657740;
   2763975236; 1272893353; 4139469664; 3200236656; 681279174; 3936430074;
   3572445317; 76029189; 3654602809; 3873151461; 530742520; 3299628645;
   4096336452; 1126891415; 2878612391; 4237533241; 1700485571; 2399980690;
   4293915773; 2240044497; 1873313359; 4264355552; 2734768916; 1309151649;
   4149444226; 3174756917; 718787259; 3951481745].

(** A little-endian 32-bit word from four bytes. *)
Definition word_le (b : list Z) : Z :=
  nth 0 b 0 + 256 * nth 1 b 0 + 65536 * nth 2 b 0 + 16777216 * nth 3 b 0.

Definition bytes_le (n : nat) (x : Z) : list Z :=
  map (fun i => (x / 256 ^ Z.of_nat i) mod 256) (seq 0 n).

Fixpoint words_of (n : nat) (b : list Z) : list Z :=
  match n with
  | O => []
  | S n' => word_le (firstn 4 b) :: words_of n' (skipn 4 b)
  end.

(** The message followed by the bit 1, zeros up to 56 modulo 64, and the
    length in bits as a 64-bit little-endian number. *)
Definition pad (msg : list Z) : list Z :=
  let len := Z.of_nat (length msg) in
  let zeros := Z.to_nat ((55 - len) mod 64) in
  msg ++ [128] ++ repeat 0 zeros ++ bytes_le 8 ((8 * len) mod 2 ^ 64).

Definition state : Type := (Z * Z * Z * Z)%type.

Definition step (M : list Z) (st : state) (i : nat) : state :=
  let '(A, B, C, D) := st in
  let iz := Z.of_nat i in
  let '(F, g) :=
    if iz <? 16 then (Z.lor (Z.land B C) (Z.land (not32 B) D), iz)
    else if iz <? 32 then (Z.lor (Z.land D B) (Z.land (not32 D) C), (5 * iz + 1) mod 16)
    else if iz <? 48 then (Z.lxor (Z.lxor B C) D, (3 * iz + 5) mod 16)
    else (Z.lxor C (Z.lor B (not32 D)), (7 * iz) mod 16) in
  let F := w32 (F + A + nth i K 0 + nth (Z.to_nat g) M 0) in
  (D, w32 (B + rotl F (nth i shifts 0)), B, C).

Definition block (st : state) (chunk : list Z) : state :=
  let '(a0, b0, c0, d0) := st in
  let '(A, B, C, D) := fold_left (step (words_of 16 chunk)) (seq 0 64) st in
  (w32 (a0 + A), w32 (b0 + B), w32 (c0 + C), w32 (d0 + D)).

Fixpoint blocks (n : nat) (st : state) (b : list Z) : state :=
  match n with
  | O => st
  | S n' => blocks n' (block st (firstn 64 b)) (skipn 64 b)
  end.

(** [hashlib.md5(msg).digest()] *)
Definition digest (msg : list Z) : list Z :=
  let p := pad msg in
  let '(a, b, c, d) :=
    blocks (length p / 64)%nat (1732584193, 4023233417, 2562383102, 271733878) p in
  bytes_le 4 a ++ bytes_le 4 b ++ bytes_le 4 c ++ bytes_le 4 d.

Definition hex_char (d : Z) : ascii :=
  ascii_of_nat (Z.to_nat (if d <? 10 then 48 + d else 87 + d)).

Fixpoint hex (b : list Z) : string :=
  match b with
  | [] => EmptyString
  | x :: b' => String (hex_char (x / 16)) (String (hex_char (x mod 16)) (hex b'))
  end.

(** [hashlib.md5(msg).hexdigest()] *)
Definition hexdigest (msg : list Z) : string := hex (digest msg).

End MD5.

(** [s.encode()]: the UTF-8 bytes of a [str]. *)
Fixpoint encode (s : string) : bytes :=
  match s with
  | EmptyString => []
  | String c s' =>
      let n := Z.of_nat (Py.code c) in
      if (n <? 128)%Z then n :: encode s'
      else Z.lor 192 (Z.shiftr n 6) :: Z.lor 128 (Z.land n 63) :: encode s'
  end.

(* ================================================================== *)
(** * The document tree (BeautifulSoup) *)
(* ================================================================== *)

(** A node of the parsed document: a text node, a comment, or an element
    with its name, its attributes whose value is a text, its [class]
    attribute, whose value BeautifulSoup holds as a list of tokens ([None]
    when the element has none), and its children in order. *)
Inductive node : Type :=
| NavigableString (s : string)
| Comment (s : string)
| Tag (name : string) (attrs : list (string * string))
      (classes : option (list string)) (contents : list node).

(** The [BeautifulSoup] object: the children of the document root. *)
Definition soup : Type := list node.

(** [tag.get(key)] on the attribute dictionary. *)
Fixpoint get (key : string) (attrs : list (string * string)) : option string :=
  match attrs with
  | [] => None
  | (k, v) :: rest => if String.eqb k key then Some v else get key rest
  end.

(** [del tag[key]] *)
Definition del (key : string) (attrs : list (string * string))
  : list (string * string) :=
  List.filter (fun kv => negb (String.eqb (fst kv) key)) attrs.

(** Truth value of a [str] or [None]. *)
Definition truthy (v : option string) : bool :=
  match v with
  | Some (String _ _) => true
  | _ => false
  end.


Definition named (names : list string) (n : node) : bool :=
  match n with
  | Tag name _ _ _ => existsb (String.eqb name) names
  | _ => false
  end.

(** [find_all]: the elements below the root that satisfy [p], in document
    order (an element before its descendants). *)
Fixpoint find_all_in (p : node -> bool) (n : node) : list node :=
  match n with
  | Tag _ _ _ kids =>
      (if p n then [n] else []) ++ flat_map (find_all_in p) kids
  | _ => []
  end.

Definition find_all (p : node -> bool) (kids : list node) : list node :=
  flat_map (find_all_in p) kids.

(** [tag.text]: the text nodes below the element, joined; comments are not
    part of it. *)
Fixpoint text (n : node) : string :=
  match n with
  | NavigableString s => s
  | Comment _ => EmptyString
  | Tag _ _ _ kids => String.concat EmptyString (map text kids)
  end.

(** [tag.string]: the only child when it is a string, the [.string] of the
    only child when it is an element, [None] otherwise. *)
Fixpoint node_string (n : node) : option string :=
  match n with
  | NavigableString s => Some s
  | Comment s => Some s
  | Tag _ _ _ [k] => node_string k
  | Tag _ _ _ _ => None
  end.

(** The loops of the shape

      [for x in soup.find_all(...): if doomed(x): x.decompose()]

    [find_all] lists the nodes in document order before the loop starts,
    and a node is judged when the loop reaches it: by then only nodes that
    come before it in document order have been removed, none of them below
    it, so it is judged as it stood when the loop began.  A removed node
    takes everything below it along ([decompose] destroys the subtree; the
    parser puts no element inside a [script], a [style] or a [meta], and an
    empty [div], [span] or [p] has none by definition). *)
Fixpoint prune (doomed : node -> bool) (n : node) : list node :=
  if doomed n then []
  else match n with
       | Tag name attrs cls kids =>
           [Tag name attrs cls (flat_map (prune doomed) kids)]
       | _ => [n]
       end.

(** [for x in soup.find_all(old): x.name = new] *)
Fixpoint rename (old new : string) (n : node) : node :=
  match n with
  | Tag name attrs cls kids =>
      Tag (if String.eqb name old then new else name) attrs cls
          (map (rename old new) kids)
  | _ => n
  end.

(* ================================================================== *)
(** * HTML processors *)
(* ================================================================== *)

(** The markers of the comments [clean_html] keeps. *)
Definition structural_markers : list string :=
  ["HEADER"; "MAIN"; "FOOTER"; "SECTION"].

(** A comment to extract: [not any(marker in str(c) for marker in ...)] *)
Definition plain_comment (n : node) : bool :=
  match n with
  | Comment c => negb (existsb (fun marker => Py.contains marker c) structural_markers)
  | _ => false
  end.

(** An empty [div], [span] or [p]:
    [not tag.text.strip() and not tag.find_all()] *)
Definition empty_tag (n : node) : bool :=
  match n with
  | Tag _ _ _ kids =>
      named ["div"; "span"; "p"] n
      && negb (truthy (Some (Py.strip (text n))))
      && match find_all (fun _ => true) kids with [] => true | _ => false end
  | _ => false
  end.

(** An inline script: [not script.get("src")] *)
Definition inline_script (n : node) : bool :=
  match n with
  | Tag _ attrs _ _ => named ["script"] n && negb (truthy (get "src" attrs))
  | _ => false
  end.

Definition og_property (v : option string) : bool :=
  match v with
  | Some p => truthy v && Py.startswith "og:" p
  | None => false
  end.

(** A [meta] that is neither a charset, nor [viewport] or [description],
    nor an Open Graph property. *)
Definition needless_meta (n : node) : bool :=
  match n with
  | Tag _ attrs _ _ =>
      named ["meta"] n
      && (negb (truthy (get "charset" attrs))
          && negb (match get "name" attrs with
                   | Some v => existsb (String.eqb v) ["viewport"; "description"]
                   | None => false
                   end))
      && negb (og_property (get "property" attrs))
  | _ => false
  end.

Definition clean_html (s : soup) : soup :=
  let s := flat_map (prune plain_comment) s in
  let s := flat_map (prune empty_tag) s in
  let s := flat_map (prune inline_script) s in
  let s := flat_map (prune needless_meta) s in
  let s := map (rename "b" "strong") s in
  let s := map (rename "i" "em") s in
  s.

(** [any(keyword in classes or keyword in div_id for keyword in keywords)] *)
Definition any_keyword (keywords : list string) (classes div_id : string) : bool :=
  existsb (fun keyword => Py.contains keyword classes || Py.contains keyword div_id)
          keywords.

(** The [if]/[elif] chain of [semantic_conversion]: the new name of a
    [div], or [None] when no branch is taken. *)
Definition detect (classes div_id : string) : option string :=
  if any_keyword ["header"; "top"; "masthead"] classes div_id then Some "header"
  else if any_keyword ["footer"; "bottom"] classes div_id then Some "footer"
  else if any_keyword ["main"; "content"; "primary"] classes div_id then Some "main"
  else if any_keyword ["section"; "block"] classes div_id then Some "section"
  else if any_keyword ["nav"; "menu"; "navigation"] classes div_id then Some "nav"
  else if any_keyword ["article"; "post"; "entry"] classes div_id then Some "article"
  else None.

Definition convert_div (attrs : list (string * string))
           (cls : option (list string)) : string :=
  let classes := Py.lower (Py.join " " (match cls with Some l => l | None => [] end)) in
  let div_id := Py.lower (match get "id" attrs with
                          | Some v => v
                          | None => EmptyString
                          end) in
  match detect classes div_id with
  | Some name => name
  | None => "div"
  end.

Fixpoint convert (n : node) : node :=
  match n with
  | Tag name attrs cls kids =>
      Tag (if String.eqb name "div" then convert_div attrs cls else name)
          attrs cls (map convert kids)
  | _ => n
  end.

Definition semantic_conversion (s : soup) : soup := map convert s.

(** The text passes of the [minify] branch of [beautify_html], in order. *)
Module Minify.

Definition spaces_then (word : string) : Re.regex :=
  Re.Cat (Re.Rep Py.isspace 0 true) (Re.Lit word).

(** [<!--(?!\s*HEADER|\s*MAIN|\s*FOOTER).*?-->] with DOTALL *)
Definition comment_re : Re.regex :=
  Re.Cat (Re.Lit "<!--")
    (Re.Cat (Re.NotAhead (Re.Alt (spaces_then "HEADER")
                            (Re.Alt (spaces_then "MAIN") (spaces_then "FOOTER"))))
       (Re.Cat (Re.Rep Re.any_char 0 false) (Re.Lit "-->"))).

(** [>\s+<] *)
Definition between_tags_re : Re.regex :=
  Re.Cat (Re.Lit ">") (Re.Cat (Re.Rep Py.isspace 1 true) (Re.Lit "<")).

(** [\s{2,}] *)
Definition spaces_re : Re.regex := Re.Rep Py.isspace 2 true.

(** [\n+] *)
Definition newlines_re : Re.regex := Re.Rep (Re.just Py.LF) 1 true.

(** [html.replace(old, new)] *)
Definition replace (old new html : string) : string :=
  Re.sub (Re.Lit old) (fun _ => new) html.

Definition type_attr (value : string) : string :=
  (" type=" ++ Py.dquote ++ value ++ Py.dquote)%string.

Definition passes (html : string) : string :=
  let html := Re.sub comment_re (fun _ => EmptyString) html in
  let html := Re.sub between_tags_re (fun _ => "><") html in
  let html := Re.sub spaces_re (fun _ => " ") html in
  let html := Re.sub newlines_re (fun _ => EmptyString) html in
  let html := replace (type_attr "text/javascript") EmptyString html in
  let html := replace (type_attr "text/css") EmptyString html in
  Py.strip html.

End Minify.

Section Serializer.

(** BeautifulSoup's two serializers, [soup.prettify(formatter="html")] and
    [soup.decode()]. *)
Variables prettify decode : soup -> string.

Definition beautify_html (s : soup) (mode : string) : string :=
  if String.eqb mode "beautify" then prettify s
  else if String.eqb mode "minify" then Minify.passes (decode s)
  else decode s.

End Serializer.

(* ================================================================== *)
(** * CSS processors: extract_style_tags *)
(* ================================================================== *)

(** State passing for the loops that fill a list and a set while they walk
    the tree. *)
Module St.

Definition M (S A : Type) : Type := S -> A * S.

Definition ret {S A : Type} (a : A) : M S A := fun s => (a, s).

Definition bind {S A B : Type} (m : M S A) (f : A -> M S B) : M S B :=
  fun s => let (a, s') := m s in f a s'.

Definition for_each {S A B : Type} (f : A -> M S B) : list A -> M S (list B) :=
  fix go (l : list A) : M S (list B) :=
    match l with
    | [] => ret []
    | x :: rest => bind (f x) (fun y => bind (go rest) (fun ys => ret (y :: ys)))
    end.

End St.

Notation "x <- m ;; k" := (St.bind m (fun x => k))
  (at level 61, m at next level, right associativity).

(** The two locals of [extract_style_tags]. *)
Record css_acc : Type := {
  combined_css : list string;
  seen_rules : list string
}.

(** [class_name]: [inline_] and the first 8 hex digits of the MD5 of the
    style text. *)
Definition class_name (style_content : string) : string :=
  ("inline_" ++ Py.take 8 (MD5.hexdigest (encode style_content)))%string.

(** [rule = f".{class_name} {{{style_content}}}"] *)
Definition rule_of (style_content : string) : string :=
  ("." ++ class_name style_content ++ " {" ++ style_content ++ "}")%string.

(** [if rule not in seen_rules: combined_css.append(rule); seen_rules.add(rule)] *)
Definition emit (rule : string) : St.M css_acc unit :=
  fun acc =>
    if existsb (String.eqb rule) (seen_rules acc) then (tt, acc)
    else (tt, {| combined_css := combined_css acc ++ [rule];
                 seen_rules := rule :: seen_rules acc |}).

(** The body of the loop over [soup.find_all(style=True)], for one element:
    its new attributes and class list. *)
Definition restyle (attrs : list (string * string)) (cls : option (list string))
  : St.M css_acc (list (string * string) * option (list string)) :=
  match get "style" attrs with
  | None => St.ret (attrs, cls)
  | Some style =>
      let style_content := Py.strip style in
      if negb (truthy (Some style_content)) then St.ret (attrs, cls)
      else
        let cls' := match cls with Some l => l | None => [] end
                    ++ [class_name style_content] in
        _ <- emit (rule_of style_content) ;;
        St.ret (del "style" attrs, Some cls')
  end.

(** The loop itself, in document order. *)
Fixpoint inline_styles (n : node) : St.M css_acc node :=
  match n with
  | Tag name attrs cls kids =>
      ac <- restyle attrs cls ;;
      kids' <- St.for_each inline_styles kids ;;
      St.ret (Tag name (fst ac) (snd ac) kids')
  | _ => St.ret n
  end.

(** The first loop: the [.string] of each [<style>] element that has one.
    [decompose] empties everything below the element, so a [<style>] inside
    another one adds nothing of its own. *)
Fixpoint style_strings (n : node) : list string :=
  match n with
  | Tag name _ _ kids =>
      if String.eqb name "style" then
        match node_string n with
        | Some s => if truthy (Some s) then [s] else []
        | None => []
        end
      else flat_map style_strings kids
  | _ => []
  end.

Definition extract_style_tags (s : soup) : string * soup :=
  let blocks := flat_map style_strings s in
  let s := flat_map (prune (named ["style"])) s in
  let (s, acc) :=
    St.for_each inline_styles s {| combined_css := blocks; seen_rules := [] |} in
  (Py.join (String Py.LF EmptyString) (combined_css acc), s).

(* ================================================================== *)
(** * CSS processors: optimize_css *)
(* ================================================================== *)

(** A call that may raise: the exceptions the program meets. *)
Inductive exn : Type :=
| ValueError
| RequestException
| OtherException (name : string).

Inductive result (A : Type) : Type :=
| Return (a : A)
| Raise (e : exn).

Arguments Return {A} a.
Arguments Raise {A} e.

Definition and_then {A B : Type} (r : result A) (f : A -> result B) : result B :=
  match r with
  | Return a => f a
  | Raise e => Raise e
  end.

(** A [Property] of a declaration block: its name (normalised), its value
    and whether it has the priority [!important].  The values are those of
    parsed properties: they are not empty and parse again, so that
    [setProperty] neither removes the property nor refuses the value. *)
Record property : Type := Property {
  prop_name : string;
  prop_value : string;
  important : bool
}.

(** A [CSSStyleDeclaration], as far as the program uses it: the
    properties in the order of the text; a name may come several times. *)
Definition style_decl : Type := list property.

(** The rules of a parsed sheet: a style rule with its [selectorText] and
    [style], or any other rule ([@media], [@import], [@font-face], a
    comment, ...) with its [type] and text. *)
Inductive css_rule : Type :=
| StyleRule (selectorText : string) (style : style_decl)
| OtherRule (type : nat) (cssText : string).

Module Css.

Definition is_named (name : string) (p : property) : bool :=
  String.eqb (prop_name p) name.

Definition is_urgent (name : string) (p : property) : bool :=
  is_named name p && important p.

(** The last property of a block that passes a test. *)
Fixpoint last_such (test : property -> bool) (style : style_decl) : option property :=
  match style with
  | [] => None
  | p :: rest =>
      match last_such test rest with
      | Some q => Some q
      | None => if test p then Some p else None
      end
  end.

(** [style.getProperty(name)]: the property in effect, which is the last
    [!important] declaration of the name when there is one, and the last
    declaration of the name otherwise. *)
Definition getProperty (name : string) (style : style_decl) : option property :=
  match last_such (is_urgent name) style with
  | Some p => Some p
  | None => last_such (is_named name) style
  end.

(** The value a declaration block gives a property: that of the property
    in effect. *)
Definition value (name : string) (style : style_decl) : option string :=
  option_map prop_value (getProperty name style).

Definition declares (name : string) (style : style_decl) : bool :=
  existsb (is_named name) style.

(** Whether a declaration of the name is [!important]. *)
Definition urgent (name : string) (style : style_decl) : bool :=
  existsb (is_urgent name) style.

(** The names of a block, each once, in the order of their last
    declarations. *)
Fixpoint names (style : style_decl) : list string :=
  match style with
  | [] => []
  | p :: rest =>
      if declares (prop_name p) rest then names rest
      else prop_name p :: names rest
  end.

(** [for prop in style]: for each name the property in effect. *)
Definition properties (style : style_decl) : style_decl :=
  flat_map (fun name => match getProperty name style with
                        | Some p => [p]
                        | None => []
                        end) (names style).

(** The last property that passes the test takes the value and loses its
    priority. *)
Fixpoint reset_last (test : property -> bool) (v : string) (style : style_decl)
  : style_decl :=
  match style with
  | [] => []
  | p :: rest =>
      if existsb test rest then p :: reset_last test v rest
      else if test p then Property (prop_name p) v false :: rest
      else p :: rest
  end.

(** [style[name] = value], that is [setProperty(name, value)] without a
    priority: the property in effect takes the value and loses its
    priority, or a property is added at the end when the name is new. *)
Definition set (name v : string) (style : style_decl) : style_decl :=
  if urgent name style then reset_last (is_urgent name) v style
  else if declares name style then reset_last (is_named name) v style
  else style ++ [Property name v false].

(** [for prop in rule.style: target.style[prop.name] = prop.value] *)
Definition merge (target source : style_decl) : style_decl :=
  fold_left (fun st p => set (prop_name p) (prop_value p) st)
            (properties source) target.

End Css.

(** The dictionary [seen_rules] of [optimize_css]: selector to rule, in
    insertion order. *)
Definition rule_dict : Type := list (string * style_decl).

(** [seen_rules[selector].style] merged with [style] when the selector is a
    key, a new last entry otherwise. *)
Fixpoint record_rule (selector : string) (style : style_decl) (seen : rule_dict)
  : rule_dict :=
  match seen with
  | [] => [(selector, style)]
  | (sel, st) :: rest =>
      if String.eqb sel selector then (sel, Css.merge st style) :: rest
      else (sel, st) :: record_rule selector style rest
  end.

(** The loop over the sheet: only style rules are recorded. *)
Definition collect (seen : rule_dict) (rule : css_rule) : rule_dict :=
  match rule with
  | StyleRule selector style => record_rule selector style seen
  | OtherRule _ _ => seen
  end.

(** The rules the sheet is rebuilt from: [seen_rules.values()]. *)
Definition optimized_rules (sheet : list css_rule) : list css_rule :=
  map (fun kv => StyleRule (fst kv) (snd kv)) (fold_left collect sheet []).

Section CssUtils.

(** [cssutils.parseString] and the serialisation of a sheet
    ([sheet.cssText.decode('utf-8')]); either may raise. *)
Variable parseString : string -> result (list css_rule).
Variable cssText : list css_rule -> result string.

(** The body of the [try] block. *)
Definition optimize_css_try (css_text : string) : result string :=
  and_then (parseString css_text) (fun sheet => cssText (optimized_rules sheet)).

Definition optimize_css (css_text : string) : string :=
  match optimize_css_try css_text with
  | Return optimized => optimized
  | Raise _ => css_text
  end.

End CssUtils.

(* ================================================================== *)
(** * Configuration and files *)
(* ================================================================== *)

Record config : Type := {
  MAX_FILE_SIZE_MB : Z;
  MAX_IMAGE_SIZE_MB : Z;
  REQUEST_TIMEOUT : Z;
  OUTPUT_DIR : string
}.

(** The values used when the environment sets none. *)
Definition default_config : config :=
  {| MAX_FILE_SIZE_MB := 10; MAX_IMAGE_SIZE_MB := 5; REQUEST_TIMEOUT := 10;
     OUTPUT_DIR := "componetes" |}.

(** [os.path.join(a, b)] for a relative [b]. *)
Definition path_join (a b : string) : string :=
  if negb (truthy (Some a)) then b
  else if Py.startswith "/" (Py.rev a) then (a ++ b)%string
  else (a ++ "/" ++ b)%string.

Definition IMAGES_DIR (cfg : config) : string := path_join (OUTPUT_DIR cfg) "images".

(** The files on disk: path to content. *)
Definition files : Type := list (string * bytes).

(** [os.path.exists(path)] *)
Definition path_exists (path : string) (fs : files) : bool :=
  existsb (fun f => String.eqb (fst f) path) fs.

(** [save_file(path, content, is_bytes=True)], the write succeeding. *)
Definition save_file (path : string) (content : bytes) : St.M files unit :=
  fun fs => (tt, (path, content) ::
                   List.filter (fun f => negb (String.eqb (fst f) path)) fs).

(* ================================================================== *)
(** * CSS processors: extract_css_base64_images *)
(* ================================================================== *)

Module CssImages.

(** [url\((data:image/[\w+]+;base64,[^)]+)\)] *)
Definition pattern : Re.regex :=
  Re.Cat (Re.Lit "url(")
    (Re.Cat
       (Re.Grp 1
          (Re.Cat (Re.Lit "data:image/")
             (Re.Cat (Re.Rep (Re.either Py.isword (Re.just "+")) 1 true)
                (Re.Cat (Re.Lit ";base64,")
                   (Re.Rep (Re.non (Re.just ")")) 1 true)))))
       (Re.Lit ")")).

(** [data:image/(\w+);base64,(.+)] *)
Definition data_url : Re.regex :=
  Re.Cat (Re.Lit "data:image/")
    (Re.Cat (Re.Grp 1 (Re.Rep Py.isword 1 true))
       (Re.Cat (Re.Lit ";base64,") (Re.Grp 2 (Re.Rep Re.dot 1 true)))).

Definition group_text (n : nat) (h : Re.hit) : string :=
  match Re.group n (Re.grps h) with
  | Some s => s
  | None => EmptyString
  end.

End CssImages.

Section CssImageExtraction.

(** The built-in [hash] of a [str], which changes from one run to the next,
    and the configuration. *)
Variable hash : string -> Z.
Variable cfg : config.

(** [filename = f"css_img_{hash(b64_data)}.{ext}"] *)
Definition css_img_filename (ext b64_data : string) : string :=
  ("css_img_" ++ Py.str_of_int (hash b64_data) ++ "." ++ ext)%string.

(** The inner function [repl], called on each match. *)
Definition repl (m : Re.hit) : St.M files string :=
  let data_url := CssImages.group_text 1 m in
  match Re.rmatch CssImages.data_url data_url with
  | None => St.ret (Re.whole m)
  | Some m' =>
      let ext := CssImages.group_text 1 m' in
      let b64_data := CssImages.group_text 2 m' in
      let filename := css_img_filename ext b64_data in
      let path := path_join (IMAGES_DIR cfg) filename in
      _ <- (fun fs =>
              if negb (path_exists path fs) then
                match safe_b64decode b64_data with
                | Some (b :: img_bytes) => save_file path (b :: img_bytes) fs
                | _ => (tt, fs)
                end
              else (tt, fs)) ;;
      St.ret ("url(" ++ Py.dquote ++ "../images/" ++ filename ++ Py.dquote ++ ")")%string
  end.

(** [pattern.sub(repl, css)]: [repl] runs on the matches from left to right. *)
Definition extract_css_base64_images (css : string) : St.M files string :=
  pieces <- St.for_each
              (fun p => match p with
                        | Re.Plain c => St.ret (String c EmptyString)
                        | Re.Found m => repl m
                        end)
              (Re.scan CssImages.pattern 0 css) ;;
  St.ret (String.concat EmptyString pieces).

End CssImageExtraction.

(* ================================================================== *)
(** * Safe download of images *)
(* ================================================================== *)

(** What [requests.get(url, stream=True, ...)] hands back: the status, the
    two headers the program reads ([None] when the header is absent), and
    the body as [iter_content] will deliver it: the chunks, and whether the
    stream breaks with a [RequestException] once they are delivered. *)
Record response : Type := {
  status_code : Z;
  content_length : option string;
  content_type : option string;
  chunks : list bytes;
  broken : bool
}.

(** The outcome of a call together with the number of chunks it has read
    from the body. *)
Definition traced (A : Type) : Type := (result A * nat)%type.

(** The [for chunk in response.iter_content(...)] loop. *)
Fixpoint read_body (limit : Z) (body : list bytes) (breaks : bool)
         (content : bytes) (nread : nat) : traced (option bytes) :=
  match body with
  | [] => if breaks then (Raise RequestException, nread)
          else (Return (Some content), nread)
  | chunk :: rest =>
      let content := content ++ chunk in
      if (Z.of_nat (length content) >? limit)%Z then (Return None, S nread)
      else read_body limit rest breaks content (S nread)
  end.

Section Download.

(** The network: the answer to a GET of a URL, or the exception
    [requests.get] raises. *)
Variable requests_get : string -> result response.
Variable cfg : config.

(** The body of the [try] block. *)
Definition download_try (url : string) (max_size_mb : Z) : traced (option bytes) :=
  match requests_get url with
  | Raise e => (Raise e, 0)
  | Return resp =>
      (* response.raise_for_status() *)
      if ((400 <=? status_code resp) && (status_code resp <? 600))%Z
      then (Raise RequestException, 0)
      else
        (* size = int(response.headers.get('Content-Length', 0)) *)
        match (match content_length resp with
               | Some v => Py.int_of_str v
               | None => Some 0%Z
               end) with
        | None => (Raise ValueError, 0)
        | Some size =>
            if (size >? max_size_mb * 1024 * 1024)%Z then (Return None, 0)
            else
              let ctype := match content_type resp with
                           | Some v => v
                           | None => EmptyString
                           end in
              if negb (Py.startswith "image/" ctype) then (Return None, 0)
              else read_body (max_size_mb * 1024 * 1024) (chunks resp)
                             (broken resp) [] 0
        end
  end.

(** [download_image_safe(url, max_size_mb)]: only a [RequestException] is
    caught. *)
Definition download_image_safe (url : string) (max_size_mb : option Z)
  : traced (option bytes) :=
  let max_size_mb := match max_size_mb with
                     | Some m => m
                     | None => MAX_IMAGE_SIZE_MB cfg
                     end in
  match download_try url max_size_mb with
  | (Raise RequestException, n) => (Return None, n)
  | other => other
  end.

End Download.

(* ================================================================== *)
(** * The pipeline: cleaning, then extraction *)
(* ================================================================== *)

Section Pipeline.

(** [clean_head] rebuilds the [<head>]; the results below hold whatever it
    does to the tree. *)
Variable clean_head : soup -> soup.



End Pipeline.

(* ================================================================== *)
(** * Image processor: extract_images *)
(* ================================================================== *)

(** Code that writes files and may raise: the outcome, and the files as
    they are when it returns or raises. *)
Module Io.

Definition M (A : Type) : Type := files -> result A * files.

Definition ret {A : Type} (a : A) : M A := fun fs => (Return a, fs).

Definition bind {A B : Type} (m : M A) (f : A -> M B) : M B :=
  fun fs => match m fs with
            | (Return a, fs') => f a fs'
            | (Raise e, fs') => (Raise e, fs')
            end.

Definition for_each {A B : Type} (f : A -> M B) : list A -> M (list B) :=
  fix go (l : list A) : M (list B) :=
    match l with
    | [] => ret []
    | x :: rest => bind (f x) (fun y => bind (go rest) (fun ys => ret (y :: ys)))
    end.

End Io.

(** [tag[key] = value] on the attribute dictionary: the entry [get] reads
    takes the value, a new key goes last. *)
Fixpoint set_attr (key value : string) (attrs : list (string * string))
  : list (string * string) :=
  match attrs with
  | [] => [(key, value)]
  | (k, v) :: rest =>
      if String.eqb k key then (k, value) :: rest
      else (k, v) :: set_attr key value rest
  end.

Module Images.

(** [data:image/(\w+);base64,] *)
Definition data_prefix : Re.regex :=
  Re.Cat (Re.Lit "data:image/")
    (Re.Cat (Re.Grp 1 (Re.Rep Py.isword 1 true)) (Re.Lit ";base64,")).

(** [data:image/\w+;base64,] *)
Definition data_header : Re.regex :=
  Re.Cat (Re.Lit "data:image/") (Re.Cat (Re.Rep Py.isword 1 true) (Re.Lit ";base64,")).

(** [s.split(sep)[-1]]: what follows the last [sep], all of [s] when it
    has none. *)
Fixpoint after_last (sep : ascii) (s : string) : string :=
  match s with
  | EmptyString => EmptyString
  | String c s' =>
      if Py.contains (String sep EmptyString) s' then after_last sep s'
      else if Ascii.eqb c sep then s' else s
  end.

(** [s.split(sep)[0]]: what comes before the first [sep]. *)
Fixpoint before_first (sep : ascii) (s : string) : string :=
  match s with
  | EmptyString => EmptyString
  | String c s' =>
      if Ascii.eqb c sep then EmptyString else String c (before_first sep s')
  end.

(** [ext = src.split(".")[-1].split("?")[0] or "png"], then [ext[:4]] *)
Definition extension (src : string) : string :=
  let ext := before_first "?" (after_last "." src) in
  let ext := if truthy (Some ext) then ext else "png" in
  Py.take 4 ext.

End Images.

Section ImageExtraction.

Variable hash : string -> Z.
Variable requests_get : string -> result response.
(** The disk: the exception [open] raises for a path that cannot be
    written, which [save_file] logs and raises again. *)
Variable write_error : string -> option exn.
Variable cfg : config.

(** [img_name = f"img_{hash(src)}.{ext}"] *)
Definition img_name (src ext : string) : string :=
  ("img_" ++ Py.str_of_int (hash src) ++ "." ++ ext)%string.

(** The lines the two branches share: the file is written, whether or not
    one of that name exists, and [img["src"]] points at it; when the file
    cannot be written the exception ends the loop. *)
Definition store (src ext : string) (content : bytes) (attrs : list (string * string))
  : Io.M (list (string * string)) :=
  fun fs =>
    let img_path := path_join (IMAGES_DIR cfg) (img_name src ext) in
    match write_error img_path with
    | Some e => (Raise e, fs)
    | None => (Return (set_attr "src" ("images/" ++ img_name src ext) attrs),
               snd (save_file img_path content fs))
    end.

(** The body of the loop, on the attributes of one [img]. *)
Definition process_img (attrs : list (string * string))
  : Io.M (list (string * string)) :=
  let src := match get "src" attrs with Some v => v | None => EmptyString end in
  if negb (truthy (Some src)) then Io.ret attrs
  else if Py.startswith "data:image" src then
    let ext := match Re.rmatch Images.data_prefix src with
               | Some m => CssImages.group_text 1 m
               | None => "png"
               end in
    let img_data := Re.sub Images.data_header (fun _ => EmptyString) src in
    match safe_b64decode img_data with
    | Some (b :: img_bytes) => store src ext (b :: img_bytes) attrs
    | _ => Io.ret attrs
    end
  else if Py.startswith "http" src then
    fun fs =>
      match fst (download_image_safe requests_get cfg src None) with
      | Raise e => (Raise e, fs)
      | Return (Some (b :: content)) =>
          store src (Images.extension src) (b :: content) attrs fs
      | Return _ => (Return attrs, fs)
      end
  else Io.ret attrs.

(** The loop over [soup.find_all("img")] visits the elements in document
    order, an element before those below it; it changes attributes only,
    so the list made before the loop is the list of the elements met. *)
Fixpoint images_in (n : node) : Io.M node :=
  match n with
  | Tag name attrs cls kids =>
      Io.bind (if named ["img"] n then process_img attrs else Io.ret attrs)
        (fun attrs' =>
           Io.bind (Io.for_each images_in kids)
             (fun kids' => Io.ret (Tag name attrs' cls kids')))
  | _ => Io.ret n
  end.

Definition extract_images (s : soup) : Io.M soup := Io.for_each images_in s.

End ImageExtraction.
(* ================================================================== *)
(** * The extraction stage and the pipeline *)
(* ================================================================== *)

Section Extraction.

Variable hash : string -> Z.
Variable requests_get : string -> result response.
Variable write_error : string -> option exn.
Variable cfg : config.

(** [ExtractionStage.process], on the tree and the files: it leaves the
    stylesheet in [context['css']] and the tree in [context['soup']].  The
    writes of [extract_css_base64_images] succeed, as in its definition;
    those of [extract_images] may fail. *)
Definition ExtractionStage (s : soup) : Io.M (string * soup) :=
  fun fs =>
    let (css, s1) := extract_style_tags s in
    let (css1, fs1) := extract_css_base64_images hash cfg css fs in
    Io.bind (extract_images hash requests_get write_error cfg s1)
            (fun s2 => Io.ret (css1, s2)) fs1.

End Extraction.

Module Pipeline.

Section Stages.

(** The context handed from stage to stage. *)
Context {C : Type}.

(** [stage.process]: the context it returns, or the exception it raises. *)
Definition stage : Type := C -> result C.

(** [add_stage]: the stage goes last. *)
Definition add_stage (stages : list stage) (st : stage) : list stage :=
  stages ++ [st].

(** [execute]: the stages in turn, each on the context the one before
    returned; an exception is logged and raised again. *)
Fixpoint execute (stages : list stage) (context : C) : result C :=
  match stages with
  | [] => Return context
  | st :: rest =>
      match st context with
      | Return context' => execute rest context'
      | Raise e => Raise e
      end
  end.

End Stages.

End Pipeline.

(* ================================================================== *)
(** * Notions used in the statements *)
(* ================================================================== *)

(** [noisy payload s]: [s] is [payload] with characters outside the base64
    alphabet put in anywhere. *)
Inductive noisy : string -> string -> Prop :=
| noisy_end : noisy EmptyString EmptyString
| noisy_keep (c : ascii) (payload s : string) :
    noisy payload s -> noisy (String c payload) (String c s)
| noisy_inject (c : ascii) (payload s : string) :
    b64_alphabet c = false -> noisy payload s -> noisy payload (String c s).

(** The canonical form of a payload: padded to a multiple of four. *)
Definition canonical (payload : string) : string := pad4 payload.

(** ** Images in the stylesheet *)

(** The reference [repl] writes for an image of type [ext] and payload
    [b64_data]. *)
Definition rewritten (hash : string -> Z) (ext b64_data : string) : string :=
  ("url(" ++ Py.dquote ++ "../images/" ++ css_img_filename hash ext b64_data
     ++ Py.dquote ++ ")")%string.

(** ** Downloads *)

(** The byte budget of a call: [max_size_mb * 1024 * 1024]. *)
Definition budget (cfg : config) (max_size_mb : option Z) : Z :=
  (match max_size_mb with Some m => m | None => MAX_IMAGE_SIZE_MB cfg end
   * 1024 * 1024)%Z.

(** The declared length, when the header is absent or a literal that
    [int()] accepts (an integer of at most 4300 digits). *)
Definition declared_size (resp : response) : option Z :=
  match content_length resp with
  | Some v => Py.int_of_str v
  | None => Some 0%Z
  end.

Definition status_ok (resp : response) : bool :=
  negb ((400 <=? status_code resp) && (status_code resp <? 600))%Z.

Definition total_length (body : list bytes) : Z :=
  Z.of_nat (length (List.concat body)).

(** ** The keyword table *)

(** The ordered keyword table: the keywords of a category and the element
    name it stands for. *)
Definition keyword_table : list (list string * string) :=
  [ (["header"; "top"; "masthead"], "header");
    (["footer"; "bottom"], "footer");
    (["main"; "content"; "primary"], "main");
    (["section"; "block"], "section");
    (["nav"; "menu"; "navigation"], "nav");
    (["article"; "post"; "entry"], "article") ].

(** The first row of a table with a keyword in the class text or the id. *)
Fixpoint first_match (table : list (list string * string))
         (classes div_id : string) : option string :=
  match table with
  | [] => None
  | (keywords, target) :: rest =>
      if any_keyword keywords classes div_id then Some target
      else first_match rest classes div_id
  end.

(** The class text and the id a [div] is judged by. *)
Definition class_text (cls : option (list string)) : string :=
  Py.lower (Py.join " " (match cls with Some l => l | None => [] end)).

Definition id_text (attrs : list (string * string)) : string :=
  Py.lower (match get "id" attrs with Some v => v | None => EmptyString end).

(** The name [semantic_conversion] gives an element. *)
Definition semantic_name (name : string) (attrs : list (string * string))
           (cls : option (list string)) : string :=
  if String.eqb name "div" then
    match first_match keyword_table (class_text cls) (id_text attrs) with
    | Some target => target
    | None => "div"
    end
  else name.

(** ** Places in a tree *)

(** A place in a tree: the hole is a run of siblings, under a chain of
    elements, each with its own name, attributes, and the siblings before
    and after the next one down. *)
Inductive ctx : Type :=
| Hole
| Under (before : list node) (name : string) (attrs : list (string * string))
        (cls : option (list string)) (inner : ctx) (after : list node).






(** Induction on a tree, the children of an element taken together. *)
Section NodeInduction.

Variable P : node -> Prop.
Hypothesis P_string : forall s, P (NavigableString s).
Hypothesis P_comment : forall s, P (Comment s).
Hypothesis P_tag : forall name attrs cls kids,
    Forall P kids -> P (Tag name attrs cls kids).

Fixpoint node_induction (n : node) : P n :=
  match n with
  | NavigableString s => P_string s
  | Comment s => P_comment s
  | Tag name attrs cls kids =>
      P_tag name attrs cls kids
        ((fix all (l : list node) : Forall P l :=
            match l with
            | [] => Forall_nil P
            | k :: rest => Forall_cons k (node_induction k) (all rest)
            end) kids)
  end.

End NodeInduction.

(** ** Inline styles *)

(** The distinct elements of a list, in the order they first occur. *)
Fixpoint first_seen (l : list string) : list string :=
  match l with
  | [] => []
  | x :: rest => x :: List.filter (fun y => negb (String.eqb y x)) (first_seen rest)
  end.

(** The tests of the filters below: not [x]; not among [seen]. *)
Definition differs (x y : string) : bool := negb (String.eqb y x).
Definition unseen (seen : list string) (y : string) : bool :=
  negb (existsb (String.eqb y) seen).

(** The style text an element is given a class for: its [style] attribute,
    trimmed, when that is not empty. *)
Definition style_text (attrs : list (string * string)) : option string :=
  match get "style" attrs with
  | Some style => if truthy (Some (Py.strip style)) then Some (Py.strip style) else None
  | None => None
  end.

Definition class_list (cls : option (list string)) : list string :=
  match cls with Some l => l | None => [] end.

(** The tree after the loop over the styled elements: each element with a
    style text loses the attribute and gains the class of that text. *)
Fixpoint restyled (n : node) : node :=
  match n with
  | Tag name attrs cls kids =>
      match style_text attrs with
      | Some sc => Tag name (del "style" attrs)
                       (Some (class_list cls ++ [class_name sc])) (map restyled kids)
      | None => Tag name attrs cls (map restyled kids)
      end
  | _ => n
  end.

(** The style texts of a tree, in document order. *)
Fixpoint style_texts (n : node) : list string :=
  match n with
  | Tag _ attrs _ kids =>
      match style_text attrs with Some sc => [sc] | None => [] end
      ++ flat_map style_texts kids
  | _ => []
  end.

(** One pass of [emit] for each rule of a list. *)
Definition emit_all (rules : list string) (acc : css_acc) : css_acc :=
  fold_left (fun a r => snd (emit r a)) rules acc.

(** How many times a text occurs in another. *)
Fixpoint occurrences (needle hay : string) : nat :=
  (if Py.startswith needle hay then 1 else 0)
  + match hay with
    | EmptyString => 0
    | String _ hay' => occurrences needle hay'
    end.

(** A page whose [<style>] block is the very rule that its styled element
    is given. *)
Definition rule_in_block : soup :=
  [Tag "style" [] None [NavigableString ".inline_9dd4e461 {x}"];
   Tag "p" [("style", "x")] None [NavigableString "a"]].

(** Two elements with the same style value, made of white space. *)
Definition blank_styles : soup :=
  [Tag "p" [("style", " ")] None [NavigableString "a"];
   Tag "p" [("style", " ")] None [NavigableString "b"]].

(** ** Style sheets *)

(** The selectors of the style rules of a sheet, in order. *)
Definition style_selectors (sheet : list css_rule) : list string :=
  flat_map (fun r => match r with
                     | StyleRule selector _ => [selector]
                     | OtherRule _ _ => []
                     end) sheet.



Definition keys (seen : rule_dict) : list string := map fst seen.

(** A key is added at the end the first time it is met. *)
Definition remember (ks : list string) (x : string) : list string :=
  if existsb (String.eqb x) ks then ks else ks ++ [x].


(** A plain serialisation of a sheet, for the examples. *)
Definition plain_text (rules : list css_rule) : string :=
  String.concat ""
    (map (fun r => match r with
                   | StyleRule sel style =>
                       (sel ++ "{"
                            ++ Py.join ";"
                                 (map (fun p => (prop_name p ++ ":" ++ prop_value p
                                                 ++ if important p then " !important"
                                                    else "")%string) style)
                            ++ "}")%string
                   | OtherRule _ txt => txt
                   end) rules).

(** A sheet with two rules for [.x], a rule for [.y] and an [@media] rule. *)
Definition sample_sheet : list css_rule :=
  [ StyleRule ".x" [Property "color" "red" false; Property "margin" "0" false];
    OtherRule 4 "@media print{.x{color:black}}";
    StyleRule ".y" [Property "top" "0" false];
    StyleRule ".x" [Property "color" "blue" false; Property "padding" "1px" false] ].








(** ** Base64 encoding *)

(** The character of a six-bit value in the base64 alphabet. *)
Definition b64_char (v : Z) : ascii :=
  ascii_of_nat (Z.to_nat (if v <? 26 then 65 + v
                          else if v <? 52 then 97 + (v - 26)
                          else if v <? 62 then 48 + (v - 52)
                          else if v =? 62 then 43 else 47))%Z.

(** The four characters of a group of three bytes. *)
Definition sextet0 (a : Z) : Z := Z.shiftr a 2.
Definition sextet1 (a b : Z) : Z := Z.lor (Z.shiftl (Z.land a 3) 4) (Z.shiftr b 4).
Definition sextet2 (b c : Z) : Z := Z.lor (Z.shiftl (Z.land b 15) 2) (Z.shiftr c 6).
Definition sextet3 (c : Z) : Z := Z.land c 63.

(** The standard encoding of a byte string, as [base64.b64encode] gives it;
    [padded] tells whether the last group is filled up with [=]. *)
Fixpoint b64encode_with (padded : bool) (data : bytes) : string :=
  match data with
  | [] => EmptyString
  | [a] =>
      String (b64_char (sextet0 a)) (String (b64_char (sextet1 a 0))
        (if padded then "==" else EmptyString))
  | [a; b] =>
      String (b64_char (sextet0 a)) (String (b64_char (sextet1 a b))
        (String (b64_char (sextet2 b 0)) (if padded then "=" else EmptyString)))
  | a :: b :: c :: rest =>
      String (b64_char (sextet0 a)) (String (b64_char (sextet1 a b))
        (String (b64_char (sextet2 b c)) (String (b64_char (sextet3 c))
           (b64encode_with padded rest))))
  end.

Definition b64encode (data : bytes) : string := b64encode_with true data.

(** A byte. *)
Definition is_byte (b : Z) : Prop := (0 <= b < 256)%Z.

(** A data character of base64: one with a value (not the pad). *)
Definition b64_data_char (c : ascii) : bool :=
  match Base64.value c with Some _ => true | None => false end.

(** The values of a byte and of a six-bit group, for checks by enumeration. *)
Definition byte_values : list Z := map Z.of_nat (seq 0 256).
Definition sextet_values : list Z := map Z.of_nat (seq 0 64).

Definition in_sextet (v : Z) : bool := ((0 <=? v) && (v <? 64))%Z.

(** The character of a six-bit value decodes to it, is not the pad and is
    in the alphabet. *)
Definition char_ok (v : Z) : bool :=
  match Base64.value (b64_char v) with
  | Some w => (w =? v)%Z && negb (Ascii.eqb (b64_char v) "=") && b64_alphabet (b64_char v)
  | None => false
  end.
(** ** Downloads: the content type and a sample response *)

(** [response.headers.get('Content-Type', '')] *)
Definition declared_type (resp : response) : string :=
  match content_type resp with
  | Some v => v
  | None => EmptyString
  end.

(** A PNG answer of five bytes in two chunks, with no Content-Length. *)
Definition sample_response : response :=
  {| status_code := 200; content_length := None;
     content_type := Some "image/png";
     chunks := [[137; 80; 78]%Z; [71; 13]%Z]; broken := false |}.
(** ** Properties of every node of a tree *)

(** [every p n]: [p] holds of [n] and of every node below it. *)
Fixpoint every (p : node -> bool) (n : node) : bool :=
  p n && match n with
         | Tag _ _ _ kids => forallb (every p) kids
         | _ => true
         end.

Definition throughout (p : node -> bool) (s : soup) : bool := forallb (every p) s.

(** A test that looks at a node, not at what is below it. *)
Definition shallow (p : node -> bool) : Prop :=
  forall name attrs cls kids kids',
    p (Tag name attrs cls kids) = p (Tag name attrs cls kids').

(** A test that a renaming of [old] to [new] does not change. *)
Definition blind_to (old new : string) (p : node -> bool) : Prop :=
  forall name attrs cls kids,
    p (Tag (if String.eqb name old then new else name) attrs cls kids)
    = p (Tag name attrs cls kids).

(** What [clean_html] leaves nowhere in the tree. *)
Definition cleaned (n : node) : bool :=
  negb (plain_comment n) && negb (inline_script n) && negb (needless_meta n)
  && negb (named ["b"; "i"] n).

(** A node with the names of the elements below and at it blanked. *)
Fixpoint anonymous (n : node) : node :=
  match n with
  | Tag _ attrs cls kids => Tag EmptyString attrs cls (map anonymous kids)
  | _ => n
  end.
(** ** Trees without styles *)

(** A node that is no [<style>] element and has no style text: its [style]
    attribute, if any, is empty or white space. *)
Definition styleless (n : node) : bool :=
  negb (named ["style"] n)
  && match n with
     | Tag _ attrs _ _ => match style_text attrs with Some _ => false | None => true end
     | _ => true
     end.
(** The style rules of a sheet, the others left out. *)
Definition style_rules (sheet : list css_rule) : list css_rule :=
  List.filter (fun r => match r with StyleRule _ _ => true | OtherRule _ _ => false end)
              sheet.

(** The entries a sheet gives the dictionary when no selector repeats. *)
Definition entries (sheet : list css_rule) : rule_dict :=
  flat_map (fun r => match r with
                     | StyleRule selector style => [(selector, style)]
                     | OtherRule _ _ => []
                     end) sheet.
(** ** Files *)

(** The content of the file at [path], if there is one. *)
Fixpoint read_file (path : string) (fs : files) : option bytes :=
  match fs with
  | [] => None
  | (p, content) :: rest => if String.eqb p path then Some content else read_file path rest
  end.

(** What a run may do to the disk: leave the files of [before] as they
    are, and add files that satisfy [fresh]. *)
Definition only_adds (fresh : string -> bytes -> Prop) (before after : files) : Prop :=
  forall path,
    match read_file path before with
    | Some content => read_file path after = Some content
    | None => match read_file path after with
              | Some content => fresh path content
              | None => True
              end
    end.

(** A file of the images directory whose name begins with [stem], with a
    content that is not empty. *)
Definition image_file (cfg : config) (stem path : string) (content : bytes) : Prop :=
  Py.startswith (path_join (IMAGES_DIR cfg) stem) path = true /\ content <> [].
(** ** Images *)

(** The [src] of the [img] elements of a tree, in document order ([None]
    for an [img] without the attribute). *)
Fixpoint img_srcs_in (n : node) : list (option string) :=
  match n with
  | Tag name attrs _ kids =>
      (if named ["img"] n then [get "src" attrs] else [])
      ++ flat_map img_srcs_in kids
  | _ => []
  end.

Definition img_srcs (s : soup) : list (option string) := flat_map img_srcs_in s.

(** A tree with the [src] of its [img] elements taken away. *)
Fixpoint without_img_src (n : node) : node :=
  match n with
  | Tag name attrs cls kids =>
      Tag name (if named ["img"] n then del "src" attrs else attrs) cls
          (map without_img_src kids)
  | _ => n
  end.


(** A [src] after the run: the one before, or a file of the images
    directory that is on disk. *)
Definition src_settled (cfg : config) (fs : files) (old new : option string) : Prop :=
  new = old
  \/ exists name, new = Some ("images/" ++ name)%string
                  /\ path_exists (path_join (IMAGES_DIR cfg) name) fs = true.

(** What one step does: nothing, or it raises what the download raised, or
    it raises because the file cannot be written, or it stores a file that
    is not empty and points [src] at it. *)
Inductive step_outcome (hash : string -> Z) (requests_get : string -> result response)
          (write_error : string -> option exn) (cfg : config)
          (attrs : list (string * string)) (fs : files)
  : result (list (string * string)) * files -> Prop :=
| step_skip : step_outcome hash requests_get write_error cfg attrs fs (Return attrs, fs)
| step_raise (src : string) (e : exn) :
    get "src" attrs = Some src -> Py.startswith "http" src = true ->
    fst (download_image_safe requests_get cfg src None) = Raise e ->
    step_outcome hash requests_get write_error cfg attrs fs (Raise e, fs)
| step_unwritable (src ext : string) (e : exn) :
    write_error (path_join (IMAGES_DIR cfg) (img_name hash src ext)) = Some e ->
    step_outcome hash requests_get write_error cfg attrs fs (Raise e, fs)
| step_store (src ext : string) (content : bytes) :
    get "src" attrs = Some src -> content <> [] ->
    step_outcome hash requests_get write_error cfg attrs fs
      (Return (set_attr "src" ("images/" ++ img_name hash src ext) attrs),
       snd (save_file (path_join (IMAGES_DIR cfg) (img_name hash src ext)) content fs)).

(** The download of the [src] of one of the images has raised [e]. *)
Definition download_raised (requests_get : string -> result response) (cfg : config)
           (s : list (option string)) (e : exn) : Prop :=
  exists url, In (Some url) s /\ Py.startswith "http" url = true
              /\ fst (download_image_safe requests_get cfg url None) = Raise e.

(** Writing an image file has raised [e]. *)
Definition write_failed (write_error : string -> option exn) (cfg : config) (e : exn)
  : Prop :=
  exists path, Py.startswith (path_join (IMAGES_DIR cfg) "img_") path = true
               /\ write_error path = Some e.

(** What makes the loop raise [e]. *)
Definition image_failure (requests_get : string -> result response)
           (write_error : string -> option exn) (cfg : config)
           (srcs : list (option string)) (e : exn) : Prop :=
  download_raised requests_get cfg srcs e \/ write_failed write_error cfg e.

(** A disk on which every write succeeds. *)
Definition sound_disk (path : string) : option exn := None.

(** A server whose [Content-Length] is not a number. *)
Definition odd_server (url : string) : result response :=
  Return {| status_code := 200; content_length := Some "42, 42";
            content_type := Some "image/png"; chunks := []; broken := false |}.

(** A server that sends three bytes of an image. *)
Definition png_server (url : string) : result response :=
  Return {| status_code := 200; content_length := None;
            content_type := Some "image/png"; chunks := [[137; 80; 78]%Z];
            broken := false |}.

(** A page with an inline image, a remote image and a local one. *)
Definition sample_page : soup :=
  [Tag "div" [] None
     [Tag "img" [("alt", "a"); ("src", "data:image/gif;base64,R0lG")] None [];
      NavigableString "text";
      Tag "img" [("src", "http://h/a.jpeg?x=1")] (Some ["wide"]) [];
      Tag "img" [("src", "local.png")] None []]].

(** No path is lost from [before] to [after]. *)
Definition keeps_paths (before after : files) : Prop :=
  forall path, path_exists path before = true -> path_exists path after = true.
(** ** Minified text *)

Definition not_line_feed (c : ascii) : bool := negb (Ascii.eqb c Py.LF).

(** The text a list of pieces gives when every match is deleted. *)
Definition erased (pieces : list Re.piece) : string :=
  String.concat EmptyString (map (Re.render (fun _ => EmptyString)) pieces).

(* ================================================================== *)
(** * Strings and patterns: basic facts *)
(* ================================================================== *)

Section StringFacts.

Lemma str_append_empty_r (s : string) : (s ++ "")%string = s.
Proof. induction s as [|c s IH]; simpl; [reflexivity | now rewrite IH]. Qed.

Lemma str_length_append (s t : string) :
  String.length (s ++ t) = String.length s + String.length t.
Proof. induction s as [|c s IH]; simpl; [reflexivity | now rewrite IH]. Qed.

Lemma str_length_repeat_char (c : ascii) (n : nat) :
  String.length (Py.repeat_char c n) = n.
Proof. induction n as [|n IH]; simpl; [reflexivity | now rewrite IH]. Qed.

Lemma str_concat_cons (x : string) (xs : list string) :
  String.concat "" (x :: xs) = (x ++ String.concat "" xs)%string.
Proof.
  destruct xs as [|y ys]; simpl.
  - now rewrite str_append_empty_r.
  - reflexivity.
Qed.

Variable keep : ascii -> bool.

Lemma str_filter_append (s t : string) :
  Py.filter keep (s ++ t) = (Py.filter keep s ++ Py.filter keep t)%string.
Proof.
  induction s as [|c s IH]; simpl; [reflexivity|].
  destruct (keep c); simpl; now rewrite IH.
Qed.

Lemma str_append_assoc (a b c : string) : ((a ++ b) ++ c = a ++ (b ++ c))%string.
Proof. induction a as [|d a IH]; simpl; [reflexivity | now rewrite IH]. Qed.

Lemma str_rev_onto_append (s acc : string) :
  Py.rev_onto s acc = (Py.rev s ++ acc)%string.
Proof.
  unfold Py.rev. revert acc.
  induction s as [|c s IH]; intros acc; simpl; [reflexivity|].
  rewrite (IH (String c acc)), (IH (String c EmptyString)).
  now rewrite str_append_assoc.
Qed.

Lemma str_rev_cons (c : ascii) (s : string) :
  Py.rev (String c s) = (Py.rev s ++ String c "")%string.
Proof. unfold Py.rev at 1. simpl. apply str_rev_onto_append. Qed.

Lemma str_rev_append (a b : string) :
  Py.rev (a ++ b) = (Py.rev b ++ Py.rev a)%string.
Proof.
  induction a as [|d a IH]; simpl.
  - now rewrite str_append_empty_r.
  - now rewrite !str_rev_cons, IH, str_append_assoc.
Qed.

Lemma str_rev_involutive (s : string) : Py.rev (Py.rev s) = s.
Proof.
  induction s as [|c s IH]; [reflexivity|].
  now rewrite str_rev_cons, str_rev_append, IH.
Qed.

Lemma str_filter_rev (s : string) :
  Py.filter keep (Py.rev s) = Py.rev (Py.filter keep s).
Proof.
  induction s as [|c s IH]; [reflexivity|].
  rewrite str_rev_cons, str_filter_append, IH. simpl.
  destruct (keep c).
  - now rewrite str_rev_cons.
  - now rewrite str_append_empty_r.
Qed.

(** What [strip] removes is white space only. *)
Hypothesis keep_no_space : forall c, Py.isspace c = true -> keep c = false.

Lemma str_filter_lstrip (s : string) : Py.filter keep (Py.lstrip s) = Py.filter keep s.
Proof.
  induction s as [|c s IH]; simpl; [reflexivity|].
  destruct (Py.isspace c) eqn:E; [|reflexivity].
  now rewrite (keep_no_space c E).
Qed.

Lemma str_filter_strip (s : string) : Py.filter keep (Py.strip s) = Py.filter keep s.
Proof.
  unfold Py.strip, Py.rstrip.
  rewrite str_filter_rev, str_filter_lstrip, str_filter_rev, str_rev_involutive.
  apply str_filter_lstrip.
Qed.

(** Deleting the matches of a one-character class is filtering. *)
Lemma sub_class_delete (s : string) :
  Re.sub (Re.Chr (Re.non keep)) (fun _ => EmptyString) s = Py.filter keep s.
Proof.
  unfold Re.sub.
  induction s as [|c s IH]; [reflexivity|].
  cbn [Re.scan Re.rmatch Re.run]. unfold Re.non at 1.
  destruct (keep c) eqn:E; cbn [negb].
  - cbn [map Re.render Py.filter]. rewrite E, str_concat_cons, IH. reflexivity.
  - unfold Re.consumed. cbn [String.length].
    replace (S (String.length s) - String.length s) with 1 by lia.
    cbn [Py.take String.length Re.whole map Re.render Py.filter].
    rewrite E, str_concat_cons, IH. reflexivity.
Qed.

End StringFacts.

Lemma space_not_b64 (c : ascii) : Py.isspace c = true -> b64_alphabet c = false.
Proof.
  destruct c as [[|] [|] [|] [|] [|] [|] [|] [|]];
    vm_compute; intros H; first [reflexivity | discriminate H].
Qed.

Lemma str_filter_all (keep : ascii -> bool) (s : string) :
  Py.forallb keep s = true -> Py.filter keep s = s.
Proof.
  induction s as [|c s IH]; simpl; [reflexivity|].
  intros H. apply andb_prop in H. destruct H as [Hc Hs].
  now rewrite Hc, IH.
Qed.

Lemma str_forallb_append (keep : ascii -> bool) (s t : string) :
  Py.forallb keep (s ++ t) = Py.forallb keep s && Py.forallb keep t.
Proof.
  induction s as [|c s IH]; simpl; [reflexivity|].
  now rewrite IH, andb_assoc.
Qed.

Lemma str_forallb_repeat_char (keep : ascii -> bool) (c : ascii) (n : nat) :
  keep c = true -> Py.forallb keep (Py.repeat_char c n) = true.
Proof. intros H. induction n as [|n IH]; simpl; [reflexivity | now rewrite H, IH]. Qed.

(** The cleaning steps of [safe_b64decode], before the decoder proper. *)
Lemma safe_b64decode_cleans (data : string) :
  safe_b64decode data = Base64.b64decode (pad4 (Py.filter b64_alphabet data)).
Proof.
  unfold safe_b64decode.
  rewrite sub_class_delete, (str_filter_strip _ space_not_b64). reflexivity.
Qed.

Lemma noisy_filter (payload s : string) :
  noisy payload s -> Py.forallb b64_alphabet payload = true ->
  Py.filter b64_alphabet s = payload.
Proof.
  induction 1 as [|c payload s _ IH|c payload s Hc _ IH]; intros Hall; simpl.
  - reflexivity.
  - simpl in Hall. apply andb_prop in Hall. destruct Hall as [Hc Hall].
    now rewrite Hc, IH.
  - now rewrite Hc, IH.
Qed.

Lemma pad4_length (s : string) : String.length (pad4 s) mod 4 = 0.
Proof.
  unfold pad4. destruct (String.length s mod 4 =? 0) eqn:E.
  - now apply Nat.eqb_eq.
  - apply Nat.eqb_neq in E.
    rewrite str_length_append, str_length_repeat_char.
    pose proof (Nat.mod_upper_bound (String.length s) 4 ltac:(lia)) as Hb.
    pose proof (Nat.div_mod_eq (String.length s) 4) as Hd.
    replace (String.length s + (4 - String.length s mod 4))
      with ((String.length s / 4 + 1) * 4) by lia.
    apply Nat.Div0.mod_mul.
Qed.

Lemma pad4_idempotent (s : string) : pad4 (pad4 s) = pad4 s.
Proof.
  unfold pad4 at 1. rewrite pad4_length. reflexivity.
Qed.

Lemma pad4_alphabet (s : string) :
  Py.forallb b64_alphabet s = true -> Py.forallb b64_alphabet (pad4 s) = true.
Proof.
  intros H. unfold pad4. destruct (_ =? 0); [exact H|].
  rewrite str_forallb_append, H. simpl. now apply str_forallb_repeat_char.
Qed.

(* ================================================================== *)
(** * safe_b64decode *)
(* ================================================================== *)

(** C9.  For every payload over the base64 alphabet, padded or not, and
    every string obtained from it by putting in characters outside the
    alphabet, [safe_b64decode] of the noisy string is [safe_b64decode] of
    the payload's canonical, padded form. *)
Theorem safe_b64decode_noise (payload s : string) :
  Py.forallb b64_alphabet payload = true ->
  noisy payload s ->
  safe_b64decode s = safe_b64decode (canonical payload).
Proof.
  intros Hall Hnoisy. unfold canonical.
  rewrite !safe_b64decode_cleans.
  rewrite (noisy_filter _ _ Hnoisy Hall).
  rewrite (str_filter_all _ _ (pad4_alphabet _ Hall)).
  now rewrite pad4_idempotent.
Qed.

Lemma safe_b64decode_noise_witness :
  safe_b64decode (String Py.LF " aGVs-bG8 ") = safe_b64decode (canonical "aGVsbG8")
  /\ safe_b64decode (canonical "aGVsbG8") = Some [104; 101; 108; 108; 111]%Z.
Proof.
  split.
  - apply (safe_b64decode_noise "aGVsbG8").
    + reflexivity.
    + apply noisy_inject; [reflexivity|].
      apply noisy_inject; [reflexivity|].
      do 4 apply noisy_keep.
      apply noisy_inject; [reflexivity|].
      do 3 apply noisy_keep.
      apply noisy_inject; [reflexivity|].
      apply noisy_end.
  - reflexivity.
Defined.

(* ================================================================== *)
(** * extract_css_base64_images *)
(* ================================================================== *)

Section CssImageFacts.

Variable hash : string -> Z.
Variable cfg : config.

(** Once the inner pattern has matched, [repl] answers with the new
    reference whether or not the payload decodes; when it does not, nothing
    is written. *)
Lemma repl_undecodable (m m' : Re.hit) (fs : files) :
  Re.rmatch CssImages.data_url (CssImages.group_text 1 m) = Some m' ->
  safe_b64decode (CssImages.group_text 2 m') = None ->
  repl hash cfg m fs
  = (rewritten hash (CssImages.group_text 1 m') (CssImages.group_text 2 m'), fs).
Proof.
  intros Hm Hd. unfold repl. rewrite Hm. unfold St.bind, St.ret. rewrite Hd.
  destruct (negb (path_exists _ fs)); reflexivity.
Qed.

(** C1.  The payload [A] cannot be decoded ([safe_b64decode] gives [None]),
    and yet the occurrence [url(data:image/png;base64,A)] does not come back
    as it was: it is replaced by a reference to [../images/css_img_<h>.png],
    a file that is never written (the files are as before). *)
Theorem extract_css_base64_images_undecodable (fs : files) :
  safe_b64decode "A" = None
  /\ extract_css_base64_images hash cfg "a{background:url(data:image/png;base64,A)}" fs
     = (("a{background:" ++ rewritten hash "png" "A" ++ "}")%string, fs)
  /\ rewritten hash "png" "A" <> "url(data:image/png;base64,A)".
Proof.
  split; [reflexivity|]. split.
  - unfold extract_css_base64_images.
    set (pieces := Re.scan _ _ _). vm_compute in pieces. subst pieces.
    unfold St.bind, St.for_each, St.ret, repl.
    set (m := Re.rmatch _ _). vm_compute in m. subst m.
    cbv beta iota zeta delta [St.bind St.ret CssImages.group_text Re.group Re.grps Nat.eqb].
    set (decoded := safe_b64decode _). vm_compute in decoded. subst decoded.
    destruct (path_exists _ fs); reflexivity.
  - unfold rewritten. cbn. intros H. discriminate H.
Qed.

End CssImageFacts.

(* ================================================================== *)
(** * beautify_html, minified *)
(* ================================================================== *)

Section MinifyFacts.

Variables prettify decode : soup -> string.

(** C2.  The comment [<!-- SECTION -->] carries a structural marker and
    [clean_html] keeps it, but the minified output drops it: the pattern of
    [beautify_html] spares only the comments that begin, after white space,
    with HEADER, MAIN or FOOTER.  So does it drop [<!-- END HEADER -->],
    which holds a marker that is not at its start. *)
Theorem minify_drops_structural_comment :
  clean_html [Comment " SECTION "] = [Comment " SECTION "]
  /\ Minify.passes "<p>a</p><!-- SECTION --><p>b</p>" = "<p>a</p><p>b</p>"
  /\ (decode [Comment " SECTION "] = "<!-- SECTION -->" ->
      beautify_html prettify decode (clean_html [Comment " SECTION "]) "minify" = "")
  /\ clean_html [Comment " END HEADER "] = [Comment " END HEADER "]
  /\ Minify.passes "<p>a</p><!-- END HEADER --><p>b</p>" = "<p>a</p><p>b</p>"
  /\ Minify.passes "<p>a</p><!-- HEADER --><p>b</p>" = "<p>a</p><!-- HEADER --><p>b</p>".
Proof.
  repeat split; try (vm_compute; reflexivity).
  intros H. unfold beautify_html.
  change (clean_html [Comment " SECTION "]) with [Comment " SECTION "].
  cbn [String.eqb Ascii.eqb Bool.eqb]. rewrite H. vm_compute. reflexivity.
Qed.

End MinifyFacts.

(* ================================================================== *)
(** * download_image_safe *)
(* ================================================================== *)

Section DownloadFacts.

Variable requests_get : string -> result response.
Variable cfg : config.

(** A transport failure: [None], nothing read. *)
Lemma download_transport_failure (url : string) (max_size_mb : option Z) :
  requests_get url = Raise RequestException ->
  download_image_safe requests_get cfg url max_size_mb = (Return None, 0).
Proof.
  intros H. unfold download_image_safe, download_try. now rewrite H.
Qed.

(** An error status: [None], nothing read. *)
Lemma download_error_status (url : string) (max_size_mb : option Z) (resp : response) :
  requests_get url = Return resp -> status_ok resp = false ->
  download_image_safe requests_get cfg url max_size_mb = (Return None, 0).
Proof.
  intros H Hs. unfold download_image_safe, download_try. rewrite H.
  unfold status_ok in Hs. apply negb_false_iff in Hs. now rewrite Hs.
Qed.



(** The loop gives up once the bytes read pass the limit. *)
Lemma read_body_over_limit (limit : Z) (body : list bytes) (breaks : bool)
      (content : bytes) (nread : nat) :
  (Z.of_nat (length content) + total_length body > limit)%Z ->
  (Z.of_nat (length content) <= limit)%Z ->
  exists n, read_body limit body breaks content nread = (Return None, n)
            /\ nread < n <= nread + length body.
Proof.
  revert content nread.
  induction body as [|chunk rest IH]; intros content nread Hover Hunder.
  - unfold total_length in Hover. simpl in Hover. lia.
  - simpl.
    destruct (Z.gtb_spec (Z.of_nat (length (content ++ chunk))) limit) as [Hgt|Hle].
    + exists (S nread). split; [reflexivity | simpl; lia].
    + destruct (IH (content ++ chunk) (S nread)) as [n [Hn Hb]].
      * unfold total_length in *. simpl in Hover.
        rewrite !length_app in *. lia.
      * exact Hle.
      * exists n. split; [exact Hn | simpl; lia].
Qed.

(** More bytes streamed than the budget, whatever length was declared
    within it (or none at all): [None]. *)
Lemma download_streamed_too_large (url : string) (max_size_mb : option Z)
      (resp : response) (size : Z) :
  requests_get url = Return resp -> status_ok resp = true ->
  declared_size resp = Some size -> (size <= budget cfg max_size_mb)%Z ->
  (0 <= budget cfg max_size_mb)%Z ->
  (total_length (chunks resp) > budget cfg max_size_mb)%Z ->
  exists n, download_image_safe requests_get cfg url max_size_mb = (Return None, n).
Proof.
  intros H Hs Hd Hsize Hpos Hbody. unfold download_image_safe, download_try. rewrite H.
  unfold status_ok in Hs. apply negb_true_iff in Hs. rewrite Hs.
  unfold declared_size in Hd. rewrite Hd.
  unfold budget in *.
  set (limit := (match max_size_mb with Some m => m | None => MAX_IMAGE_SIZE_MB cfg end
                 * 1024 * 1024)%Z) in *.
  destruct (Z.gtb_spec size limit); [lia|].
  destruct (negb _); [now exists 0|].
  destruct (read_body_over_limit limit (chunks resp) (broken resp) [] 0)
    as [n [Hn _]]; [simpl; lia | simpl; lia |].
  exists n. now rewrite Hn.
Qed.

(** C3.  A response whose Content-Length is not an integer literal makes
    the call raise [ValueError], whatever its Content-Type: [int()] fails on
    the header before the type is looked at, and only [RequestException] is
    caught.  So with Content-Length [42, 42] (one length given twice, which
    HTTP permits) and Content-Type [text/html], a type that does not begin
    with [image/], the call does not come back with [None]. *)
Theorem download_image_safe_raises (url : string) (max_size_mb : option Z)
        (resp : response) (v : string) :
  requests_get url = Return resp -> status_ok resp = true ->
  content_length resp = Some v -> Py.int_of_str v = None ->
  download_image_safe requests_get cfg url max_size_mb = (Raise ValueError, 0).
Proof.
  intros H Hs Hv Hint. unfold download_image_safe, download_try. rewrite H.
  unfold status_ok in Hs. apply negb_true_iff in Hs. now rewrite Hs, Hv, Hint.
Qed.

End DownloadFacts.

Lemma download_image_safe_raises_witness :
  download_image_safe
    (fun _ => Return {| status_code := 200; content_length := Some "42, 42";
                        content_type := Some "text/html"; chunks := [];
                        broken := false |})
    default_config "http://example.org/a.png" None = (Raise ValueError, 0).
Proof.
  apply (download_image_safe_raises _ default_config _ None
           {| status_code := 200; content_length := Some "42, 42";
              content_type := Some "text/html"; chunks := []; broken := false |}
           "42, 42"); reflexivity.
Defined.

(** [int()] reads a literal of 4300 digits and refuses one of 4301,
    whatever its value. *)
Example int_of_str_digit_limit :
  Py.int_of_str (Py.repeat_char "0" 4300) = Some 0%Z
  /\ Py.int_of_str (Py.repeat_char "0" 4301) = None.
Proof. vm_compute. split; reflexivity. Qed.

(* ================================================================== *)
(** * semantic_conversion *)
(* ================================================================== *)

Lemma detect_first_match (classes div_id : string) :
  detect classes div_id = first_match keyword_table classes div_id.
Proof.
  unfold detect, keyword_table. cbn [first_match].
  repeat match goal with
         | |- context [if ?b then _ else _] => destruct b; [reflexivity|]
         end.
  reflexivity.
Qed.

Lemma convert_name (name : string) (attrs : list (string * string))
      (cls : option (list string)) (kids : list node) :
  convert (Tag name attrs cls kids)
  = Tag (semantic_name name attrs cls) attrs cls (map convert kids).
Proof.
  cbn [convert]. unfold semantic_name, convert_div.
  now rewrite detect_first_match.
Qed.

(** The targets of the table are not [div]: a converted element is not
    looked at again. *)
Lemma first_match_not_div (classes div_id target : string) :
  first_match keyword_table classes div_id = Some target -> target <> "div".
Proof.
  unfold keyword_table. cbn [first_match].
  repeat match goal with
         | |- context [if ?b then _ else _] => destruct b
         end; intros H; inversion H; discriminate.
Qed.


(* ================================================================== *)
(** * clean_html: the empty elements *)
(* ================================================================== *)

Section CleanFacts.








Lemma prune_tag (doomed : node -> bool) (name : string)
      (attrs : list (string * string)) (cls : option (list string)) (kids : list node) :
  prune doomed (Tag name attrs cls kids)
  = if doomed (Tag name attrs cls kids) then []
    else [Tag name attrs cls (flat_map (prune doomed) kids)].
Proof. reflexivity. Qed.

Lemma rename_tag (old new name : string) (attrs : list (string * string))
      (cls : option (list string)) (kids : list node) :
  rename old new (Tag name attrs cls kids)
  = Tag (if String.eqb name old then new else name) attrs cls
        (map (rename old new) kids).
Proof. reflexivity. Qed.





End CleanFacts.



(* ================================================================== *)
(** * extract_style_tags *)
(* ================================================================== *)

Section FirstSeen.

Lemma first_seen_cons (x : string) (l : list string) :
  first_seen (x :: l) = x :: List.filter (differs x) (first_seen l).
Proof. reflexivity. Qed.

Lemma filter_unseen_differs (seen : list string) (x : string) (l : list string) :
  existsb (String.eqb x) seen = true ->
  List.filter (unseen seen) (List.filter (differs x) l) = List.filter (unseen seen) l.
Proof.
  intros Hx. induction l as [|y l IH]; [reflexivity|].
  cbn [List.filter]. unfold differs at 1.
  destruct (String.eqb_spec y x) as [->|Hne]; cbn [negb].
  - unfold unseen at 2. rewrite Hx. cbn [negb]. exact IH.
  - cbn [List.filter]. now rewrite IH.
Qed.

Lemma filter_unseen_cons (seen : list string) (x : string) (l : list string) :
  List.filter (unseen (x :: seen)) l
  = List.filter (unseen seen) (List.filter (differs x) l).
Proof.
  induction l as [|y l IH]; [reflexivity|].
  cbn [List.filter]. unfold unseen at 1, differs at 1. cbn [existsb].
  destruct (String.eqb y x); cbn [negb orb].
  - exact IH.
  - cbn [List.filter]. fold (unseen seen y). now rewrite IH.
Qed.

Lemma unseen_snoc (seen : list string) (x y : string) :
  unseen (seen ++ [x]) y = unseen (x :: seen) y.
Proof.
  unfold unseen. rewrite existsb_app. cbn [existsb].
  now rewrite orb_false_r, orb_comm.
Qed.

Lemma filter_unseen_nil (l : list string) : List.filter (unseen []) l = l.
Proof. induction l as [|y l IH]; [reflexivity | cbn; now rewrite IH]. Qed.

Lemma first_seen_In (l : list string) (x : string) : In x (first_seen l) <-> In x l.
Proof.
  induction l as [|y l IH]; [tauto|].
  rewrite first_seen_cons. cbn [In]. rewrite filter_In, IH. unfold differs.
  destruct (String.eqb_spec x y) as [->|Hne]; cbn [negb]; intuition congruence.
Qed.

Lemma first_seen_NoDup (l : list string) : NoDup (first_seen l).
Proof.
  induction l as [|y l IH]; [constructor|].
  rewrite first_seen_cons. constructor.
  - rewrite filter_In. unfold differs. rewrite String.eqb_refl. cbn. intros [_ H]. discriminate H.
  - now apply NoDup_filter.
Qed.

End FirstSeen.

Section StyleFacts.

Lemma emit_all_combined (rules : list string) (acc : css_acc) :
  combined_css (emit_all rules acc)
  = combined_css acc ++ List.filter (unseen (seen_rules acc)) (first_seen rules).
Proof.
  revert acc. induction rules as [|r rules IH]; intros acc.
  - cbn. now rewrite app_nil_r.
  - unfold emit_all. cbn [fold_left]. fold (emit_all rules (snd (emit r acc))).
    rewrite IH, first_seen_cons. cbn [List.filter]. unfold emit, unseen at 2.
    destruct (existsb (String.eqb r) (seen_rules acc)) eqn:Hseen; cbn [snd negb].
    + now rewrite filter_unseen_differs.
    + cbn [combined_css seen_rules]. rewrite <- app_assoc. cbn [app].
      now rewrite filter_unseen_cons.
Qed.

Lemma restyle_spec (attrs : list (string * string)) (cls : option (list string))
      (acc : css_acc) :
  restyle attrs cls acc
  = match style_text attrs with
    | Some sc => ((del "style" attrs, Some (class_list cls ++ [class_name sc])),
                  emit_all [rule_of sc] acc)
    | None => ((attrs, cls), acc)
    end.
Proof.
  unfold restyle, style_text.
  destruct (get "style" attrs) as [style|]; [|reflexivity].
  destruct (truthy (Some (Py.strip style))); [|reflexivity].
  cbn [negb]. unfold St.bind, St.ret, emit_all. cbn [fold_left].
  destruct (emit (rule_of (Py.strip style)) acc) as [[] acc']. reflexivity.
Qed.

Lemma emit_all_app (r1 r2 : list string) (acc : css_acc) :
  emit_all (r1 ++ r2) acc = emit_all r2 (emit_all r1 acc).
Proof. unfold emit_all. apply fold_left_app. Qed.

(** The walk over the tree is the tree rewritten element by element, and
    one [emit] for each style text in document order. *)
Lemma inline_styles_spec (n : node) :
  forall acc, inline_styles n acc
              = (restyled n, emit_all (map rule_of (style_texts n)) acc).
Proof.
  induction n as [s|s|name attrs cls kids IH] using node_induction; intros acc;
    [reflexivity | reflexivity |].
  cbn [inline_styles restyled style_texts]. unfold St.bind at 1.
  rewrite restyle_spec, map_app, emit_all_app.
  set (acc1 := emit_all (map rule_of match style_text attrs with
                                     | Some sc => [sc] | None => [] end) acc).
  assert (Hkids : forall a, St.for_each inline_styles kids a
                            = (map restyled kids,
                               emit_all (map rule_of (flat_map style_texts kids)) a)).
  { clear acc acc1. induction IH as [|k rest Hk _ IHrest]; intros a; [reflexivity|].
    cbn [St.for_each flat_map map]. unfold St.bind at 1. rewrite Hk.
    unfold St.bind at 1. fold (St.for_each inline_styles rest). rewrite IHrest.
    unfold St.ret. now rewrite map_app, emit_all_app. }
  destruct (style_text attrs) as [sc|]; cbn [fst snd];
    unfold St.bind; rewrite Hkids; reflexivity.
Qed.

Lemma for_each_inline_styles (s : soup) (acc : css_acc) :
  St.for_each inline_styles s acc
  = (map restyled s, emit_all (map rule_of (flat_map style_texts s)) acc).
Proof.
  revert acc. induction s as [|k rest IH]; intros acc; [reflexivity|].
  cbn [St.for_each flat_map map]. unfold St.bind at 1. rewrite inline_styles_spec.
  unfold St.bind at 1. fold (St.for_each inline_styles rest). rewrite IH.
  unfold St.ret. now rewrite map_app, emit_all_app.
Qed.

Lemma count_occ_once (l : list string) (x : string) :
  NoDup l -> In x l -> count_occ string_dec l x = 1.
Proof.
  intros Hnd Hin.
  pose proof (proj1 (NoDup_count_occ string_dec l) Hnd x) as Hle.
  pose proof (proj1 (count_occ_In string_dec l x) Hin) as Hpos.
  lia.
Qed.

End StyleFacts.

(** C4.  [extract_style_tags] returns the text of the [<style>] blocks
    followed by one rule for each distinct style text, in the order the
    texts first occur, one per line; and the tree in which every element
    with a style text (its [style] attribute, trimmed, when not empty) has
    lost the attribute and gained the class [inline_<h>], [<h>] being the
    first 8 hex digits of the MD5 of the text.  So two elements with the
    same text get the same class, and the rule [.inline_<h> {<text>}] is
    there once: it occurs once among the rules, and once in the whole list
    when no [<style>] block is that very text. *)
Theorem extract_style_tags_dedup (s : soup) :
  let s0 := flat_map (prune (named ["style"])) s in
  let blocks := flat_map style_strings s in
  let rules := first_seen (map rule_of (flat_map style_texts s0)) in
  extract_style_tags s
  = (Py.join (String Py.LF EmptyString) (blocks ++ rules), map restyled s0)
  /\ NoDup rules
  /\ (forall name attrs cls kids style,
        get "style" attrs = Some style -> Py.strip style <> EmptyString ->
        restyled (Tag name attrs cls kids)
        = Tag name (del "style" attrs)
              (Some (class_list cls
                     ++ [("inline_"
                          ++ Py.take 8 (MD5.hexdigest (encode (Py.strip style))))%string]))
              (map restyled kids))
  /\ (forall sc, In sc (flat_map style_texts s0) ->
        rule_of sc = ("." ++ class_name sc ++ " {" ++ sc ++ "}")%string
        /\ count_occ string_dec rules (rule_of sc) = 1
        /\ (~ In (rule_of sc) blocks ->
            count_occ string_dec (blocks ++ rules) (rule_of sc) = 1)).
Proof.
  intros s0 blocks rules.
  split; [|split; [|split]].
  - unfold extract_style_tags. fold s0 blocks.
    rewrite for_each_inline_styles, emit_all_combined.
    cbn [combined_css seen_rules]. now rewrite filter_unseen_nil.
  - apply first_seen_NoDup.
  - intros name attrs cls kids style Hget Hne.
    cbn [restyled]. unfold style_text. rewrite Hget.
    destruct (Py.strip style) as [|c rest] eqn:E; [congruence|]. reflexivity.
  - intros sc Hin.
    assert (Hrule : In (rule_of sc) rules).
    { apply first_seen_In, in_map, Hin. }
    split; [reflexivity|]. split.
    + apply count_occ_once; [apply first_seen_NoDup | exact Hrule].
    + intros Hblocks. rewrite count_occ_app.
      rewrite (proj1 (count_occ_not_In string_dec blocks (rule_of sc)) Hblocks).
      apply count_occ_once; [apply first_seen_NoDup | exact Hrule].
Qed.

(** Two elements with [style="color:red"], the second with spaces around
    the text: one class, one rule. *)
Example extract_style_tags_twice :
  extract_style_tags
    [Tag "p" [("style", "color:red")] None [NavigableString "a"];
     Tag "p" [("style", " color:red ")] (Some ["x"]) [NavigableString "b"]]
  = (".inline_b64e6d9e {color:red}",
     [Tag "p" [] (Some ["inline_b64e6d9e"]) [NavigableString "a"];
      Tag "p" [] (Some ["x"; "inline_b64e6d9e"]) [NavigableString "b"]]).
Proof. vm_compute. reflexivity. Qed.

(** C4, as stated, fails.  The text of a [<style>] block is copied without
    being entered among the rules seen: when it is the rule of a styled
    element, the rule is in the returned text twice.  And two elements
    whose style value is the same white space, a value that is not empty,
    are given no class: the value is trimmed first. *)
Lemma extract_style_tags_rule_twice :
  rule_of "x" = ".inline_9dd4e461 {x}"
  /\ extract_style_tags rule_in_block
     = ((".inline_9dd4e461 {x}" ++ String Py.LF ".inline_9dd4e461 {x}")%string,
        [Tag "p" [] (Some ["inline_9dd4e461"]) [NavigableString "a"]])
  /\ occurrences (rule_of "x") (fst (extract_style_tags rule_in_block)) = 2
  /\ extract_style_tags blank_styles = (EmptyString, blank_styles).
Proof. vm_compute. repeat split. Qed.

(* ================================================================== *)
(** * optimize_css *)
(* ================================================================== *)

Section CssFacts.

(** *** The property in effect *)


Lemma existsb_last_such (test : property -> bool) (style : style_decl) :
  existsb test style
  = match Css.last_such test style with Some _ => true | None => false end.
Proof.
  induction style as [|q rest IH]; [reflexivity|]. cbn [existsb Css.last_such].
  rewrite IH. destruct (Css.last_such test rest); [apply orb_true_r|].
  rewrite orb_false_r. now destruct (test q).
Qed.

Lemma last_such_none (test : property -> bool) (style : style_decl) :
  existsb test style = false -> Css.last_such test style = None.
Proof.
  rewrite existsb_last_such. now destruct (Css.last_such test style).
Qed.



Lemma urgent_declares (name : string) (style : style_decl) :
  Css.declares name style = false -> Css.urgent name style = false.
Proof.
  unfold Css.declares, Css.urgent. induction style as [|p rest IH]; [reflexivity|].
  cbn [existsb]. intros H. apply orb_false_elim in H. destruct H as [Hp Hrest].
  rewrite (IH Hrest), orb_false_r. unfold Css.is_urgent. now rewrite Hp.
Qed.

Lemma getProperty_calm (name : string) (style : style_decl) :
  Css.urgent name style = false ->
  Css.getProperty name style = Css.last_such (Css.is_named name) style.
Proof.
  intros H. unfold Css.getProperty. now rewrite (last_such_none _ _ H).
Qed.


Lemma getProperty_undeclared (name : string) (style : style_decl) :
  Css.declares name style = false -> Css.getProperty name style = None.
Proof.
  intros H. rewrite (getProperty_calm _ _ (urgent_declares _ _ H)).
  now apply last_such_none.
Qed.

Lemma declares_value (name : string) (style : style_decl) :
  Css.declares name style = false -> Css.value name style = None.
Proof. intros H. unfold Css.value. now rewrite getProperty_undeclared. Qed.

Lemma value_declares (name : string) (style : style_decl) :
  Css.declares name style = true -> Css.value name style <> None.
Proof.
  unfold Css.declares, Css.value, Css.getProperty. rewrite existsb_last_such.
  destruct (Css.last_such (Css.is_urgent name) style); [discriminate|].
  now destruct (Css.last_such (Css.is_named name) style).
Qed.

(** *** Item assignment *)











(** *** Iteration *)





(** *** The dictionary *)

Lemma keys_record_rule (selector : string) (style : style_decl) (seen : rule_dict) :
  keys (record_rule selector style seen) = remember (keys seen) selector.
Proof.
  unfold remember, keys.
  induction seen as [|[sel st] rest IH]; [reflexivity|].
  cbn [record_rule map fst existsb]. rewrite (String.eqb_sym selector sel).
  destruct (String.eqb sel selector); cbn [orb map fst]; [reflexivity|].
  rewrite IH. now destruct (existsb _ _).
Qed.

Lemma fold_remember (l ks : list string) :
  fold_left remember l ks = ks ++ List.filter (unseen ks) (first_seen l).
Proof.
  revert ks. induction l as [|x l IH]; intros ks.
  - cbn. now rewrite app_nil_r.
  - cbn [fold_left]. rewrite IH, first_seen_cons. cbn [List.filter].
    unfold remember, unseen at 2.
    destruct (existsb (String.eqb x) ks) eqn:Hx; cbn [negb].
    + now rewrite filter_unseen_differs.
    + rewrite <- app_assoc. cbn [app]. f_equal. f_equal.
      rewrite <- filter_unseen_cons. apply filter_ext. intros y. apply unseen_snoc.
Qed.

Lemma keys_collect (sheet : list css_rule) (seen : rule_dict) :
  keys (fold_left collect sheet seen) = fold_left remember (style_selectors sheet) (keys seen).
Proof.
  revert seen. induction sheet as [|r rest IH]; intros seen; [reflexivity|].
  cbn [fold_left]. rewrite IH. destruct r as [sel st|t txt]; cbn [collect].
  - unfold style_selectors. cbn [flat_map app fold_left]. now rewrite keys_record_rule.
  - reflexivity.
Qed.




Lemma keys_optimized (sheet : list css_rule) :
  keys (fold_left collect sheet []) = first_seen (style_selectors sheet).
Proof.
  rewrite keys_collect, fold_remember. cbn [keys map app].
  apply filter_unseen_nil.
Qed.

Lemma style_selectors_optimized (sheet : list css_rule) :
  style_selectors (optimized_rules sheet) = first_seen (style_selectors sheet).
Proof.
  rewrite <- keys_optimized. unfold optimized_rules, style_selectors, keys.
  induction (fold_left collect sheet []) as [|[sel st] rest IH]; [reflexivity|].
  cbn [map flat_map fst app]. now rewrite IH.
Qed.

Lemma optimized_rules_style (sheet : list css_rule) (r : css_rule) :
  In r (optimized_rules sheet) ->
  exists sel st, r = StyleRule sel st /\ In (sel, st) (fold_left collect sheet []).
Proof.
  unfold optimized_rules. rewrite in_map_iff. intros [[sel st] [E Hin]].
  exists sel, st. split; [now rewrite <- E | exact Hin].
Qed.


(** Rules that are not style rules do not count. *)
Lemma collect_style_rules (sheet : list css_rule) (seen : rule_dict) :
  fold_left collect sheet seen = fold_left collect (style_rules sheet) seen.
Proof.
  unfold style_rules. revert seen.
  induction sheet as [|[sel st|t txt] rest IH]; intros seen; [reflexivity| |].
  - cbn [List.filter fold_left]. apply IH.
  - cbn [List.filter fold_left collect]. apply IH.
Qed.

Lemma style_selectors_In (sheet : list css_rule) (selector : string) :
  In selector (style_selectors sheet) <->
  exists style, In (StyleRule selector style) sheet.
Proof.
  unfold style_selectors. rewrite in_flat_map. split.
  - intros [[sel st|t txt] [Hin Hs]]; [|now elim Hs].
    destruct Hs as [<-|[]]. now exists st.
  - intros [st Hin]. exists (StyleRule selector st). split; [exact Hin|now left].
Qed.

End CssFacts.

Section OptimizeFacts.

Variable parseString : string -> result (list css_rule).
Variable cssText : list css_rule -> result string.


(** C6.  When the [try] block raises, in the parser or later, [optimize_css]
    returns the text it was given, as it was; it raises in no case (its
    result is a string). *)
Theorem optimize_css_fallback (css_text : string) (e : exn) :
  optimize_css_try parseString cssText css_text = Raise e ->
  optimize_css parseString cssText css_text = css_text.
Proof. intros H. unfold optimize_css. now rewrite H. Qed.

(** C10.  When the text parses, the sheet that [optimize_css] serialises
    is made from the style rules of the input alone: the other rules (an
    at-rule, a comment) have no part in it, so that the input with those
    rules taken out gives the same sheet; every rule of it is a style rule
    whose selector is that of a style rule of the input, no rule of another
    kind is in it, and an input without style rules gives the empty
    sheet. *)
Theorem optimize_css_style_rules_only (css_text : string) (sheet : list css_rule) :
  parseString css_text = Return sheet ->
  optimize_css_try parseString cssText css_text
  = cssText (optimized_rules (style_rules sheet))
  /\ optimized_rules sheet = optimized_rules (style_rules sheet)
  /\ (forall r, In r (optimized_rules sheet) ->
        exists selector style first,
          r = StyleRule selector style /\ In (StyleRule selector first) sheet)
  /\ (forall type text, ~ In (OtherRule type text) (optimized_rules sheet))
  /\ (style_rules sheet = [] -> optimized_rules sheet = []).
Proof.
  intros Hparse.
  assert (Hsame : optimized_rules sheet = optimized_rules (style_rules sheet)).
  { unfold optimized_rules. now rewrite collect_style_rules. }
  split; [|split; [exact Hsame|split; [|split]]].
  - unfold optimize_css_try. rewrite Hparse. cbn [and_then]. now rewrite Hsame.
  - intros r Hin. destruct (optimized_rules_style _ _ Hin) as [sel [st [E _]]].
    subst r.
    assert (Hsel : In sel (style_selectors sheet)).
    { apply first_seen_In. rewrite <- style_selectors_optimized.
      apply style_selectors_In. now exists st. }
    apply style_selectors_In in Hsel. destruct Hsel as [first Hfirst].
    now exists sel, st, first.
  - intros type txt Hin. destruct (optimized_rules_style _ _ Hin) as [sel [st [E _]]].
    discriminate E.
  - intros Hnone. rewrite Hsame, Hnone. reflexivity.
Qed.

End OptimizeFacts.



Lemma optimize_css_fallback_witness :
  optimize_css (fun _ => Raise (OtherException "SyntaxErr"))
               (fun rules => Return (plain_text rules)) ".x{color:" = ".x{color:".
Proof.
  exact (optimize_css_fallback (fun _ => Raise (OtherException "SyntaxErr"))
           (fun rules => Return (plain_text rules)) ".x{color:"
           (OtherException "SyntaxErr") eq_refl).
Defined.

Lemma optimize_css_style_rules_only_witness :
  optimize_css_try (fun _ => Return sample_sheet) (fun rules => Return (plain_text rules))
    ".x{color:red;margin:0}@media print{.x{color:black}}.y{top:0}.x{color:blue;padding:1px}"
  = Return ".x{color:blue;margin:0;padding:1px}.y{top:0}"
  /\ optimized_rules sample_sheet = optimized_rules (style_rules sample_sheet)
  /\ ~ In (OtherRule 4 "@media print{.x{color:black}}") (optimized_rules sample_sheet).
Proof.
  destruct (optimize_css_style_rules_only (fun _ => Return sample_sheet)
              (fun rules => Return (plain_text rules))
              ".x{color:red;margin:0}@media print{.x{color:black}}.y{top:0}.x{color:blue;padding:1px}"
              sample_sheet eq_refl)
    as [H1 [H2 [_ [H4 _]]]].
  split; [exact H1|]. split; [exact H2|].
  exact (H4 4 "@media print{.x{color:black}}").
Defined.

(* ================================================================== *)
(** * safe_b64decode: round trip and rejection *)
(* ================================================================== *)

Section Base64Facts.

Local Open Scope Z_scope.

Lemma in_values (n : nat) (b : Z) :
  0 <= b < Z.of_nat n -> In b (map Z.of_nat (seq 0 n)).
Proof.
  intros H. apply in_map_iff. exists (Z.to_nat b). split; [lia|].
  apply in_seq. lia.
Qed.

Lemma for_all_bytes (p : Z -> bool) :
  forallb p byte_values = true -> forall b, is_byte b -> p b = true.
Proof.
  intros H b Hb. rewrite forallb_forall in H. apply H.
  apply (in_values 256). exact Hb.
Qed.

Lemma for_all_byte_pairs (p : Z -> Z -> bool) :
  forallb (fun a => forallb (p a) byte_values) byte_values = true ->
  forall a b, is_byte a -> is_byte b -> p a b = true.
Proof.
  intros H a b Ha Hb.
  apply (for_all_bytes (p a)); [|exact Hb].
  apply (for_all_bytes (fun a => forallb (p a) byte_values)); assumption.
Qed.

Lemma for_all_sextets (p : Z -> bool) :
  forallb p sextet_values = true -> forall v, 0 <= v < 64 -> p v = true.
Proof.
  intros H v Hv. rewrite forallb_forall in H. apply H.
  apply (in_values 64). exact Hv.
Qed.

Lemma in_sextet_spec (v : Z) : in_sextet v = true -> 0 <= v < 64.
Proof. unfold in_sextet. intros H. apply andb_prop in H. lia. Qed.

Lemma sextet0_range (a : Z) : is_byte a -> 0 <= sextet0 a < 64.
Proof.
  intros Ha. apply in_sextet_spec.
  apply (for_all_bytes (fun a => in_sextet (sextet0 a))); [vm_compute; reflexivity | exact Ha].
Qed.

Lemma sextet1_range (a b : Z) : is_byte a -> is_byte b -> 0 <= sextet1 a b < 64.
Proof.
  intros Ha Hb. apply in_sextet_spec.
  apply (for_all_byte_pairs (fun a b => in_sextet (sextet1 a b)));
    [vm_compute; reflexivity | exact Ha | exact Hb].
Qed.

Lemma sextet2_range (b c : Z) : is_byte b -> is_byte c -> 0 <= sextet2 b c < 64.
Proof.
  intros Hb Hc. apply in_sextet_spec.
  apply (for_all_byte_pairs (fun b c => in_sextet (sextet2 b c)));
    [vm_compute; reflexivity | exact Hb | exact Hc].
Qed.

Lemma sextet3_range (c : Z) : is_byte c -> 0 <= sextet3 c < 64.
Proof.
  intros Hc. apply in_sextet_spec.
  apply (for_all_bytes (fun c => in_sextet (sextet3 c))); [vm_compute; reflexivity | exact Hc].
Qed.

Lemma zero_byte : is_byte 0.
Proof. unfold is_byte. lia. Qed.

(** The decoder gets back the first byte of a group from its first two
    characters, the second from the next one, the third from the last. *)
Lemma first_byte (a b : Z) :
  is_byte a -> is_byte b ->
  Base64.u8 (Z.lor (Z.shiftl (sextet0 a) 2) (Z.shiftr (sextet1 a b) 4)) = a.
Proof.
  intros Ha Hb. apply Z.eqb_eq.
  apply (for_all_byte_pairs
           (fun a b => Base64.u8 (Z.lor (Z.shiftl (sextet0 a) 2)
                                    (Z.shiftr (sextet1 a b) 4)) =? a));
    [vm_compute; reflexivity | exact Ha | exact Hb].
Qed.

Lemma second_byte (a b c : Z) :
  is_byte a -> is_byte b -> is_byte c ->
  Base64.u8 (Z.lor (Z.shiftl (Z.land (sextet1 a b) 15) 4) (Z.shiftr (sextet2 b c) 2)) = b.
Proof.
  intros Ha Hb Hc.
  assert (E : Z.land (sextet1 a b) 15 = Z.shiftr b 4).
  { apply Z.eqb_eq.
    apply (for_all_byte_pairs (fun a b => Z.land (sextet1 a b) 15 =? Z.shiftr b 4));
      [vm_compute; reflexivity | exact Ha | exact Hb]. }
  rewrite E. apply Z.eqb_eq.
  apply (for_all_byte_pairs
           (fun b c => Base64.u8 (Z.lor (Z.shiftl (Z.shiftr b 4) 4)
                                    (Z.shiftr (sextet2 b c) 2)) =? b));
    [vm_compute; reflexivity | exact Hb | exact Hc].
Qed.

Lemma third_byte (b c : Z) :
  is_byte b -> is_byte c ->
  Base64.u8 (Z.lor (Z.shiftl (Z.land (sextet2 b c) 3) 6) (sextet3 c)) = c.
Proof.
  intros Hb Hc. apply Z.eqb_eq.
  apply (for_all_byte_pairs
           (fun b c => Base64.u8 (Z.lor (Z.shiftl (Z.land (sextet2 b c) 3) 6)
                                    (sextet3 c)) =? c));
    [vm_compute; reflexivity | exact Hb | exact Hc].
Qed.

Lemma b64_char_ok (v : Z) :
  0 <= v < 64 ->
  Base64.value (b64_char v) = Some v
  /\ Ascii.eqb (b64_char v) "=" = false
  /\ b64_alphabet (b64_char v) = true.
Proof.
  intros Hv.
  pose proof (for_all_sextets char_ok ltac:(vm_compute; reflexivity) v Hv) as H.
  unfold char_ok in H. destruct (Base64.value (b64_char v)) as [w|]; [|discriminate H].
  apply andb_prop in H. destruct H as [H Ha].
  apply andb_prop in H. destruct H as [Hw He].
  apply Z.eqb_eq in Hw. apply negb_true_iff in He. subst w. now repeat split.
Qed.

(** One step of the decoder on a data character. *)
Lemma a2b_data_step (c : ascii) (v : Z) (s : string) (quad_pos : nat)
      (leftchar : Z) (pads : nat) (out : bytes) :
  Base64.value c = Some v -> Ascii.eqb c "=" = false ->
  Base64.a2b_loop (String c s) quad_pos leftchar pads out
  = match quad_pos with
    | 0%nat => Base64.a2b_loop s 1 v 0 out
    | 1%nat => Base64.a2b_loop s 2 (Z.land v 15) 0
                 (Base64.u8 (Z.lor (Z.shiftl leftchar 2) (Z.shiftr v 4)) :: out)
    | 2%nat => Base64.a2b_loop s 3 (Z.land v 3) 0
                 (Base64.u8 (Z.lor (Z.shiftl leftchar 4) (Z.shiftr v 2)) :: out)
    | _ => Base64.a2b_loop s 0 0 0
             (Base64.u8 (Z.lor (Z.shiftl leftchar 6) v) :: out)
    end.
Proof. intros Hv He. cbn [Base64.a2b_loop]. now rewrite He, Hv. Qed.

Lemma a2b_char_step (v : Z) (s : string) (quad_pos : nat)
      (leftchar : Z) (pads : nat) (out : bytes) :
  0 <= v < 64 ->
  Base64.a2b_loop (String (b64_char v) s) quad_pos leftchar pads out
  = match quad_pos with
    | 0%nat => Base64.a2b_loop s 1 v 0 out
    | 1%nat => Base64.a2b_loop s 2 (Z.land v 15) 0
                 (Base64.u8 (Z.lor (Z.shiftl leftchar 2) (Z.shiftr v 4)) :: out)
    | 2%nat => Base64.a2b_loop s 3 (Z.land v 3) 0
                 (Base64.u8 (Z.lor (Z.shiftl leftchar 4) (Z.shiftr v 2)) :: out)
    | _ => Base64.a2b_loop s 0 0 0
             (Base64.u8 (Z.lor (Z.shiftl leftchar 6) v) :: out)
    end.
Proof.
  intros Hv. destruct (b64_char_ok v Hv) as [H1 [H2 _]].
  now apply a2b_data_step.
Qed.

(** Induction on a list, three elements at a time. *)
Lemma list_ind3 {A : Type} (P : list A -> Prop) :
  P [] -> (forall a, P [a]) -> (forall a b, P [a; b]) ->
  (forall a b c rest, P rest -> P (a :: b :: c :: rest)) ->
  forall l, P l.
Proof.
  intros H0 H1 H2 H3.
  fix IH 1. intros l.
  destruct l as [|a [|b [|c rest]]]; [exact H0 | apply H1 | apply H2 |].
  apply H3, IH.
Qed.

Lemma a2b_encode (data : bytes) :
  Forall is_byte data ->
  forall out, Base64.a2b_loop (b64encode data) 0 0 0 out = Some (List.rev out ++ data).
Proof.
  unfold b64encode.
  induction data as [|a|a b|a b c rest IH] using list_ind3; intros Hall out.
  - cbn. now rewrite app_nil_r.
  - inversion Hall as [|? ? Ha _]; subst.
    cbn [b64encode_with].
    rewrite a2b_char_step by now apply sextet0_range.
    rewrite a2b_char_step by (apply sextet1_range; [assumption | apply zero_byte]).
    rewrite first_byte by (assumption || apply zero_byte).
    cbn [Base64.a2b_loop Ascii.eqb Bool.eqb Nat.leb Nat.add andb].
    cbn [List.rev]. rewrite <- ?app_assoc. reflexivity.
  - inversion Hall as [|? ? Ha Hall']; subst. inversion Hall' as [|? ? Hb _]; subst.
    cbn [b64encode_with].
    rewrite a2b_char_step by now apply sextet0_range.
    rewrite a2b_char_step by now apply sextet1_range.
    rewrite a2b_char_step by (apply sextet2_range; [assumption | apply zero_byte]).
    rewrite first_byte, second_byte by (assumption || apply zero_byte).
    cbn [Base64.a2b_loop Ascii.eqb Bool.eqb Nat.leb Nat.add andb].
    cbn [List.rev]. rewrite <- ?app_assoc. reflexivity.
  - inversion Hall as [|? ? Ha Hall1]; subst. inversion Hall1 as [|? ? Hb Hall2]; subst.
    inversion Hall2 as [|? ? Hc Hrest]; subst.
    cbn [b64encode_with].
    rewrite a2b_char_step by now apply sextet0_range.
    rewrite a2b_char_step by now apply sextet1_range.
    rewrite a2b_char_step by now apply sextet2_range.
    rewrite a2b_char_step by now apply sextet3_range.
    rewrite first_byte, second_byte, third_byte by assumption.
    rewrite (IH Hrest). cbn [List.rev]. rewrite <- ?app_assoc. reflexivity.
Qed.

Lemma pad4_group (c0 c1 c2 c3 : ascii) (s : string) :
  pad4 (String c0 (String c1 (String c2 (String c3 s))))
  = String c0 (String c1 (String c2 (String c3 (pad4 s)))).
Proof.
  unfold pad4. cbn [String.length].
  replace (S (S (S (S (String.length s)))) mod 4)%nat with (String.length s mod 4)%nat.
  - now destruct (_ =? 0)%nat.
  - change (S (S (S (S (String.length s))))) with (4 + String.length s)%nat.
    rewrite <- (Nat.Div0.add_mod_idemp_l 4). reflexivity.
Qed.

Lemma pad4_encode (padded : bool) (data : bytes) :
  pad4 (b64encode_with padded data) = b64encode data.
Proof.
  unfold b64encode.
  induction data as [|a|a b|a b c rest IH] using list_ind3.
  - reflexivity.
  - destruct padded; reflexivity.
  - destruct padded; reflexivity.
  - cbn [b64encode_with]. now rewrite pad4_group, IH.
Qed.

Lemma encode_alphabet (padded : bool) (data : bytes) :
  Forall is_byte data -> Py.forallb b64_alphabet (b64encode_with padded data) = true.
Proof.
  induction data as [|a|a b|a b c rest IH] using list_ind3; intros Hall.
  - reflexivity.
  - inversion Hall as [|? ? Ha _]; subst. cbn [b64encode_with Py.forallb].
    rewrite (proj2 (proj2 (b64_char_ok _ (sextet0_range a Ha)))).
    rewrite (proj2 (proj2 (b64_char_ok _ (sextet1_range a 0 Ha zero_byte)))).
    now destruct padded.
  - inversion Hall as [|? ? Ha Hall']; subst. inversion Hall' as [|? ? Hb _]; subst.
    cbn [b64encode_with Py.forallb].
    rewrite (proj2 (proj2 (b64_char_ok _ (sextet0_range a Ha)))).
    rewrite (proj2 (proj2 (b64_char_ok _ (sextet1_range a b Ha Hb)))).
    rewrite (proj2 (proj2 (b64_char_ok _ (sextet2_range b 0 Hb zero_byte)))).
    now destruct padded.
  - inversion Hall as [|? ? Ha Hall1]; subst. inversion Hall1 as [|? ? Hb Hall2]; subst.
    inversion Hall2 as [|? ? Hc Hrest]; subst.
    cbn [b64encode_with Py.forallb].
    rewrite (proj2 (proj2 (b64_char_ok _ (sextet0_range a Ha)))).
    rewrite (proj2 (proj2 (b64_char_ok _ (sextet1_range a b Ha Hb)))).
    rewrite (proj2 (proj2 (b64_char_ok _ (sextet2_range b c Hb Hc)))).
    rewrite (proj2 (proj2 (b64_char_ok _ (sextet3_range c Hc)))).
    now rewrite (IH Hrest).
Qed.

(** Data characters move the decoder round its group of four. *)
Lemma a2b_data_run (t rest : string) :
  Py.forallb b64_data_char t = true ->
  forall quad_pos leftchar pads out,
    (quad_pos < 4)%nat ->
    exists leftchar' pads' out',
      Base64.a2b_loop (t ++ rest) quad_pos leftchar pads out
      = Base64.a2b_loop rest ((quad_pos + String.length t) mod 4)%nat leftchar' pads' out'.
Proof.
  induction t as [|c t IH]; intros Hall quad_pos leftchar pads out Hq.
  - exists leftchar, pads, out. cbn [String.append String.length].
    rewrite Nat.add_0_r, Nat.mod_small by exact Hq. reflexivity.
  - cbn [Py.forallb] in Hall. apply andb_prop in Hall. destruct Hall as [Hc Hall].
    unfold b64_data_char in Hc. destruct (Base64.value c) as [v|] eqn:Hv; [|discriminate Hc].
    assert (He : Ascii.eqb c "=" = false).
    { destruct (Ascii.eqb_spec c "=") as [->|]; [discriminate Hv | reflexivity]. }
    cbn [String.append String.length]. rewrite (a2b_data_step c v _ _ _ _ _ Hv He).
    replace ((quad_pos + S (String.length t)) mod 4)%nat
      with ((S quad_pos mod 4 + String.length t) mod 4)%nat
      by (rewrite Nat.Div0.add_mod_idemp_l; f_equal; lia).
    destruct quad_pos as [|[|[|[|q]]]]; [| | | |lia].
    + apply (IH Hall 1%nat). lia.
    + apply (IH Hall 2%nat). lia.
    + apply (IH Hall 3%nat). lia.
    + apply (IH Hall 0%nat). lia.
Qed.

End Base64Facts.

(** X1.  For every byte string, [safe_b64decode] gives the bytes back from
    their standard base64 encoding, with or without the padding, and with
    any characters outside the alphabet put in. *)
Theorem safe_b64decode_b64encode (data : bytes) (padded : bool) (s : string) :
  Forall is_byte data ->
  noisy (b64encode_with padded data) s ->
  safe_b64decode s = Some data.
Proof.
  intros Hall Hnoisy.
  rewrite safe_b64decode_cleans.
  rewrite (noisy_filter _ _ Hnoisy (encode_alphabet padded data Hall)).
  rewrite pad4_encode. unfold Base64.b64decode.
  now rewrite (a2b_encode data Hall []).
Qed.

Lemma safe_b64decode_b64encode_witness :
  safe_b64decode (String Py.LF "aG Vs-bG8") = Some [104; 101; 108; 108; 111]%Z.
Proof.
  apply (safe_b64decode_b64encode [104; 101; 108; 108; 111]%Z false).
  - repeat constructor; unfold is_byte; lia.
  - cbn [b64encode_with].
    apply noisy_inject; [reflexivity|].
    do 2 apply noisy_keep.
    apply noisy_inject; [reflexivity|].
    do 2 apply noisy_keep.
    apply noisy_inject; [reflexivity|].
    do 3 apply noisy_keep.
    apply noisy_end.
Defined.

(** X2.  When what is left of the data after cleaning is data characters
    only, one more than a multiple of four of them, [safe_b64decode]
    returns [None]: no byte string has such an encoding. *)
Theorem safe_b64decode_rejects (s : string) :
  Py.forallb b64_data_char (Py.filter b64_alphabet s) = true ->
  (String.length (Py.filter b64_alphabet s) mod 4 = 1)%nat ->
  safe_b64decode s = None.
Proof.
  intros Hdata Hlen.
  rewrite safe_b64decode_cleans. unfold pad4, Base64.b64decode. rewrite Hlen.
  cbn [Nat.eqb Nat.sub Py.repeat_char].
  destruct (a2b_data_run (Py.filter b64_alphabet s) "===" Hdata 0 0%Z 0 [])
    as [leftchar [pads [out E]]]; [lia|].
  rewrite E. cbn [Nat.add]. rewrite Hlen. reflexivity.
Qed.

Lemma safe_b64decode_rejects_witness : safe_b64decode "aGV sb" = None.
Proof. apply safe_b64decode_rejects; reflexivity. Defined.
(* ================================================================== *)
(** * download_image_safe: what it returns and what it reads *)
(* ================================================================== *)

Section DownloadMore.

Variable requests_get : string -> result response.
Variable cfg : config.

(** The loop on a body that stays within the limit. *)
Lemma read_body_within (limit : Z) (body : list bytes) (breaks : bool)
      (content : bytes) (nread : nat) :
  (Z.of_nat (length content) + total_length body <= limit)%Z ->
  read_body limit body breaks content nread
  = (if breaks then Raise RequestException
     else Return (Some (content ++ List.concat body)), nread + length body).
Proof.
  revert content nread.
  induction body as [|chunk rest IH]; intros content nread Hfit.
  - cbn [read_body List.concat length]. rewrite app_nil_r, Nat.add_0_r.
    now destruct breaks.
  - cbn [read_body]. unfold total_length in *. cbn [List.concat] in *.
    rewrite length_app in Hfit.
    destruct (Z.gtb_spec (Z.of_nat (length (content ++ chunk))) limit) as [Hgt|Hle].
    + rewrite length_app in Hgt. lia.
    + rewrite IH by (rewrite length_app; lia).
      rewrite <- app_assoc. cbn [length]. now rewrite Nat.add_succ_r.
Qed.

(** The loop gives up at the first chunk that takes the bytes read over
    the limit, and reads no further. *)
Lemma read_body_overflow (limit : Z) (body : list bytes) (breaks : bool)
      (content : bytes) (nread : nat) :
  (Z.of_nat (length content) <= limit)%Z ->
  (Z.of_nat (length content) + total_length body > limit)%Z ->
  exists k,
    read_body limit body breaks content nread = (Return None, nread + S k)
    /\ k < length body
    /\ ((Z.of_nat (length content) + total_length (firstn k body) <= limit)%Z
        \/ k = 0)
    /\ (Z.of_nat (length content) + total_length (firstn (S k) body) > limit)%Z.
Proof.
  revert content nread.
  induction body as [|chunk rest IH]; intros content nread Hunder Hover.
  - unfold total_length in Hover. cbn in Hover. lia.
  - cbn [read_body].
    destruct (Z.gtb_spec (Z.of_nat (length (content ++ chunk))) limit) as [Hgt|Hle].
    + exists 0. rewrite length_app in Hgt.
      split; [now rewrite Nat.add_1_r|]. split; [cbn; lia|]. split; [now right|].
      unfold total_length. cbn [firstn List.concat]. rewrite app_nil_r. lia.
    + destruct (IH (content ++ chunk) (S nread)) as [k [E [Hk [Hfit Hout]]]].
      { exact Hle. }
      { unfold total_length in *. cbn [List.concat] in Hover.
        rewrite !length_app in *. lia. }
      exists (S k). rewrite E.
      split; [f_equal; lia|]. split; [cbn; lia|].
      unfold total_length in *. rewrite length_app in *.
      split.
      * left. cbn [firstn List.concat]. rewrite length_app.
        destruct Hfit as [Hfit| ->]; [lia|]. cbn [firstn List.concat length]. lia.
      * cbn [firstn List.concat] in *. rewrite length_app. lia.
Qed.

(** What the loop returns when it returns content. *)
Lemma read_body_content (limit : Z) (body : list bytes) (breaks : bool)
      (content got : bytes) (nread n : nat) :
  read_body limit body breaks content nread = (Return (Some got), n) ->
  breaks = false /\ got = content ++ List.concat body /\ n = nread + length body
  /\ (body <> [] -> Z.of_nat (length got) <= limit)%Z.
Proof.
  revert content nread.
  induction body as [|chunk rest IH]; intros content nread H.
  - cbn [read_body] in H. destruct breaks; [discriminate H|].
    inversion H; subst. cbn [List.concat length].
    rewrite app_nil_r, Nat.add_0_r. now repeat split.
  - cbn [read_body] in H.
    destruct (Z.gtb_spec (Z.of_nat (length (content ++ chunk))) limit) as [Hgt|Hle];
      [discriminate H|].
    destruct (IH _ _ H) as [Hb [Hg [Hn Hl]]].
    split; [exact Hb|]. split; [cbn [List.concat]; now rewrite app_assoc|].
    split; [cbn [length]; lia|].
    intros _. destruct rest as [|c rest'].
    + cbn [List.concat] in Hg. rewrite app_nil_r in Hg. now subst got.
    + apply Hl. discriminate.
Qed.

Lemma download_accepts (url : string) (max_size_mb : option Z) (resp : response)
      (size : Z) :
  requests_get url = Return resp -> status_ok resp = true ->
  declared_size resp = Some size -> (size <= budget cfg max_size_mb)%Z ->
  Py.startswith "image/" (declared_type resp) = true ->
  download_try requests_get url
    (match max_size_mb with Some m => m | None => MAX_IMAGE_SIZE_MB cfg end)
  = read_body (budget cfg max_size_mb) (chunks resp) (broken resp) [] 0.
Proof.
  intros H Hs Hd Hsize Ht. unfold download_try. rewrite H.
  unfold status_ok in Hs. apply negb_true_iff in Hs. rewrite Hs.
  unfold declared_size in Hd. rewrite Hd.
  unfold budget in *. unfold declared_type in Ht.
  destruct (Z.gtb_spec size
              (match max_size_mb with Some m => m | None => MAX_IMAGE_SIZE_MB cfg end
               * 1024 * 1024)%Z); [lia|].
  now rewrite Ht.
Qed.


(** X4.  When more bytes are streamed than the budget allows (a budget that
    is not negative), although the declared length, or its absence, passed
    the first test, the answer is [None]; the loop stops at the first chunk
    that takes the total over the budget and reads none after it. *)
Theorem download_streamed_over_budget (url : string) (max_size_mb : option Z)
        (resp : response) (size : Z) :
  requests_get url = Return resp -> status_ok resp = true ->
  declared_size resp = Some size -> (size <= budget cfg max_size_mb)%Z ->
  Py.startswith "image/" (declared_type resp) = true ->
  (0 <= budget cfg max_size_mb)%Z ->
  (total_length (chunks resp) > budget cfg max_size_mb)%Z ->
  exists k,
    download_image_safe requests_get cfg url max_size_mb = (Return None, S k)
    /\ k < length (chunks resp)
    /\ (total_length (firstn (S k) (chunks resp)) > budget cfg max_size_mb)%Z
    /\ ((total_length (firstn k (chunks resp)) <= budget cfg max_size_mb)%Z \/ k = 0).
Proof.
  intros H Hs Hd Hsize Ht Hpos Hover.
  unfold download_image_safe.
  rewrite (download_accepts url max_size_mb resp size H Hs Hd Hsize Ht).
  destruct (read_body_overflow (budget cfg max_size_mb) (chunks resp) (broken resp) [] 0)
    as [k [E [Hk [Hfit Hout]]]]; [cbn [length]; lia | cbn [length]; lia |].
  exists k. rewrite E. cbn [length Nat.add] in *.
  split; [reflexivity|]. split; [exact Hk|]. split; [lia|].
  destruct Hfit as [Hfit|Hz]; [left; lia | now right].
Qed.

(** X5.  Content is returned only for an answer with a good status and an
    image type whose stream ended without a failure; it is then the whole
    body, every chunk read, and, the budget not being negative, it is
    within the budget. *)
Theorem download_content_sound (url : string) (max_size_mb : option Z)
        (content : bytes) (n : nat) :
  (0 <= budget cfg max_size_mb)%Z ->
  download_image_safe requests_get cfg url max_size_mb = (Return (Some content), n) ->
  exists resp,
    requests_get url = Return resp
    /\ status_ok resp = true
    /\ Py.startswith "image/" (declared_type resp) = true
    /\ broken resp = false
    /\ content = List.concat (chunks resp)
    /\ n = length (chunks resp)
    /\ (Z.of_nat (length content) <= budget cfg max_size_mb)%Z.
Proof.
  intros Hpos H. unfold download_image_safe, download_try in H.
  destruct (requests_get url) as [resp|e] eqn:Hget.
  2:{ destruct e; discriminate H. }
  exists resp. split; [reflexivity|].
  unfold status_ok, declared_type.
  destruct ((400 <=? status_code resp) && (status_code resp <? 600))%Z;
    [discriminate H|].
  destruct (match content_length resp with
            | Some v => Py.int_of_str v
            | None => Some 0%Z
            end) as [size|]; [|discriminate H].
  destruct (size >? _)%Z; [discriminate H|].
  destruct (Py.startswith "image/" _) eqn:Ht; [|discriminate H].
  cbn [negb] in H.
  fold (budget cfg max_size_mb) in H.
  destruct (read_body (budget cfg max_size_mb) (chunks resp) (broken resp) [] 0)
    as [[got|e] m] eqn:Hread.
  2:{ destruct e; discriminate H. }
  inversion H; subst got m.
  destruct (read_body_content _ _ _ _ _ _ _ Hread) as [Hb [Hc [Hn Hl]]].
  cbn [app Nat.add] in Hc, Hn.
  repeat split; try assumption; try reflexivity.
  destruct (chunks resp) as [|c rest] eqn:Hchunks.
  - subst content. cbn. exact Hpos.
  - apply Hl. discriminate.
Qed.

(** X6.  An answer with a good status, an image type, a declared length
    within the budget (or none) and a body within the budget that streams
    to its end is returned whole, all its chunks read. *)
Theorem download_success (url : string) (max_size_mb : option Z)
        (resp : response) (size : Z) :
  requests_get url = Return resp -> status_ok resp = true ->
  declared_size resp = Some size -> (size <= budget cfg max_size_mb)%Z ->
  Py.startswith "image/" (declared_type resp) = true ->
  (total_length (chunks resp) <= budget cfg max_size_mb)%Z ->
  broken resp = false ->
  download_image_safe requests_get cfg url max_size_mb
  = (Return (Some (List.concat (chunks resp))), length (chunks resp)).
Proof.
  intros H Hs Hd Hsize Ht Hfit Hb.
  unfold download_image_safe.
  rewrite (download_accepts url max_size_mb resp size H Hs Hd Hsize Ht).
  rewrite read_body_within by (cbn [length]; lia).
  now rewrite Hb.
Qed.

(** X7.  A failure of the transport gives [None]: a [RequestException]
    raised by the request, an error status (4xx or 5xx), or a stream that
    breaks before the budget is passed.  Any other exception the request
    raises is not caught: the call raises it. *)
Theorem download_failures (url : string) (max_size_mb : option Z) :
  (requests_get url = Raise RequestException ->
   download_image_safe requests_get cfg url max_size_mb = (Return None, 0))
  /\ (forall resp, requests_get url = Return resp -> status_ok resp = false ->
        download_image_safe requests_get cfg url max_size_mb = (Return None, 0))
  /\ (forall resp size,
        requests_get url = Return resp -> status_ok resp = true ->
        declared_size resp = Some size -> (size <= budget cfg max_size_mb)%Z ->
        Py.startswith "image/" (declared_type resp) = true ->
        (total_length (chunks resp) <= budget cfg max_size_mb)%Z ->
        broken resp = true ->
        download_image_safe requests_get cfg url max_size_mb
        = (Return None, length (chunks resp)))
  /\ (forall e, requests_get url = Raise e -> e <> RequestException ->
        download_image_safe requests_get cfg url max_size_mb = (Raise e, 0)).
Proof.
  split; [|split; [|split]].
  - apply download_transport_failure.
  - intros resp. apply download_error_status.
  - intros resp size H Hs Hd Hsize Ht Hfit Hb.
    unfold download_image_safe.
    rewrite (download_accepts url max_size_mb resp size H Hs Hd Hsize Ht).
    rewrite read_body_within by (cbn [length]; lia).
    now rewrite Hb.
  - intros e H Hne. unfold download_image_safe, download_try. rewrite H.
    destruct e; [reflexivity | now elim Hne | reflexivity].
Qed.

End DownloadMore.


Lemma download_streamed_over_budget_witness :
  exists k,
    download_image_safe (fun _ => Return sample_response)
      {| MAX_FILE_SIZE_MB := 10; MAX_IMAGE_SIZE_MB := 0; REQUEST_TIMEOUT := 10;
         OUTPUT_DIR := "out" |} "http://example.org/a.png" None = (Return None, S k)
    /\ k < 2.
Proof.
  destruct (download_streamed_over_budget (fun _ => Return sample_response)
              {| MAX_FILE_SIZE_MB := 10; MAX_IMAGE_SIZE_MB := 0; REQUEST_TIMEOUT := 10;
                 OUTPUT_DIR := "out" |} "http://example.org/a.png" None
              sample_response 0%Z eq_refl eq_refl eq_refl
              ltac:(discriminate) eq_refl ltac:(discriminate) eq_refl) as [k [E [Hk _]]].
  exists k. split; [exact E | exact Hk].
Defined.

Lemma download_content_sound_witness :
  exists resp, Return sample_response = Return resp
               /\ [137; 80; 78; 71; 13]%Z = List.concat (chunks resp).
Proof.
  destruct (download_content_sound (fun _ => Return sample_response) default_config
              "http://example.org/a.png" None [137; 80; 78; 71; 13]%Z 2
              ltac:(discriminate) eq_refl) as [resp [H1 [_ [_ [_ [H5 _]]]]]].
  exists resp. split; [exact H1 | exact H5].
Defined.

Lemma download_success_witness :
  download_image_safe (fun _ => Return sample_response) default_config
    "http://example.org/a.png" None
  = (Return (Some [137; 80; 78; 71; 13]%Z), 2).
Proof.
  apply (download_success _ default_config _ None sample_response 0%Z);
    try reflexivity; discriminate.
Defined.
(* ================================================================== *)
(** * clean_html and semantic_conversion: the whole tree *)
(* ================================================================== *)

Section TreeFacts.

Lemma every_tag (p : node -> bool) (name : string) (attrs : list (string * string))
      (cls : option (list string)) (kids : list node) :
  every p (Tag name attrs cls kids)
  = p (Tag name attrs cls kids) && throughout p kids.
Proof. reflexivity. Qed.

Lemma throughout_app (p : node -> bool) (s1 s2 : soup) :
  throughout p (s1 ++ s2) = throughout p s1 && throughout p s2.
Proof. apply forallb_app. Qed.

Lemma every_and (p q : node -> bool) (n : node) :
  every (fun x => p x && q x) n = every p n && every q n.
Proof.
  induction n as [s|s|name attrs cls kids IH] using node_induction.
  - cbn. now rewrite !andb_true_r.
  - cbn. now rewrite !andb_true_r.
  - rewrite !every_tag.
    assert (E : throughout (fun x => p x && q x) kids
                = throughout p kids && throughout q kids).
    { unfold throughout. induction IH as [|k rest Hk _ IHrest]; [reflexivity|].
      cbn [forallb]. rewrite Hk, IHrest.
      destruct (every p k), (every q k), (forallb (every p) rest); reflexivity. }
    rewrite E.
    destruct (p _), (q _), (throughout p kids); reflexivity.
Qed.

Lemma throughout_ext (p q : node -> bool) (s : soup) :
  (forall n, p n = q n) -> throughout p s = throughout q s.
Proof.
  intros Hpq.
  assert (Hnode : forall n, every p n = every q n).
  { intros n.
    induction n as [t|t|name attrs cls kids IH] using node_induction.
    - cbn. now rewrite Hpq.
    - cbn. now rewrite Hpq.
    - rewrite !every_tag, Hpq. f_equal.
      unfold throughout. induction IH as [|k rest Hk _ IHrest]; [reflexivity|].
      cbn [forallb]. now rewrite Hk, IHrest. }
  unfold throughout. induction s as [|k rest IH]; [reflexivity|].
  cbn [forallb]. now rewrite Hnode, IH.
Qed.

Lemma throughout_and (p q : node -> bool) (s : soup) :
  throughout (fun x => p x && q x) s = throughout p s && throughout q s.
Proof.
  unfold throughout. induction s as [|k rest IH]; [reflexivity|].
  cbn [forallb]. rewrite every_and, IH.
  destruct (every p k), (every q k), (forallb (every p) rest); reflexivity.
Qed.

(** A loop that removes the nodes a shallow test dooms leaves none. *)
Lemma prune_leaves_none (doomed : node -> bool) :
  shallow doomed ->
  forall n, throughout (fun x => negb (doomed x)) (prune doomed n) = true.
Proof.
  intros Hsh n.
  induction n as [s|s|name attrs cls kids IH] using node_induction.
  - cbn [prune]. destruct (doomed (NavigableString s)) eqn:E; [reflexivity|].
    cbn. now rewrite E.
  - cbn [prune]. destruct (doomed (Comment s)) eqn:E; [reflexivity|].
    cbn. now rewrite E.
  - rewrite prune_tag. destruct (doomed (Tag name attrs cls kids)) eqn:E; [reflexivity|].
    unfold throughout at 1. cbn [forallb]. rewrite every_tag.
    rewrite (Hsh name attrs cls _ kids), E. cbn [negb andb]. rewrite andb_true_r.
    clear E. induction IH as [|k rest Hk _ IHrest]; [reflexivity|].
    cbn [flat_map]. now rewrite throughout_app, Hk, IHrest.
Qed.

(** Such a loop keeps what holds throughout, for a shallow property. *)
Lemma prune_keeps (doomed p : node -> bool) :
  shallow p ->
  forall n, every p n = true -> throughout p (prune doomed n) = true.
Proof.
  intros Hsh n.
  induction n as [s|s|name attrs cls kids IH] using node_induction; intros Hp.
  - cbn [prune]. destruct (doomed _); [reflexivity|].
    unfold throughout. cbn [forallb]. now rewrite Hp.
  - cbn [prune]. destruct (doomed _); [reflexivity|].
    unfold throughout. cbn [forallb]. now rewrite Hp.
  - rewrite prune_tag. destruct (doomed _); [reflexivity|].
    rewrite every_tag in Hp. apply andb_prop in Hp. destruct Hp as [Hn Hkids].
    unfold throughout at 1. cbn [forallb]. rewrite every_tag.
    rewrite (Hsh name attrs cls _ kids), Hn. cbn [andb]. rewrite andb_true_r.
    unfold throughout in Hkids. clear Hn.
    induction IH as [|k rest Hk _ IHrest]; [reflexivity|].
    cbn [forallb] in Hkids. apply andb_prop in Hkids. destruct Hkids as [H1 H2].
    cbn [flat_map]. now rewrite throughout_app, (Hk H1), (IHrest H2).
Qed.

Lemma pass_leaves_none (doomed : node -> bool) (s : soup) :
  shallow doomed ->
  throughout (fun x => negb (doomed x)) (flat_map (prune doomed) s) = true.
Proof.
  intros Hsh. induction s as [|k rest IH]; [reflexivity|].
  cbn [flat_map]. now rewrite throughout_app, prune_leaves_none, IH.
Qed.

Lemma pass_keeps (doomed p : node -> bool) (s : soup) :
  shallow p -> throughout p s = true ->
  throughout p (flat_map (prune doomed) s) = true.
Proof.
  intros Hsh. induction s as [|k rest IH]; [reflexivity|].
  unfold throughout at 1. cbn [forallb]. intros H. apply andb_prop in H.
  destruct H as [H1 H2].
  cbn [flat_map]. now rewrite throughout_app, (prune_keeps doomed p Hsh k H1), (IH H2).
Qed.

(** A renaming keeps what holds throughout, for a shallow property that
    does not tell the two names apart. *)
Lemma rename_keeps (old new : string) (p : node -> bool) (s : soup) :
  shallow p -> blind_to old new p -> throughout p s = true ->
  throughout p (map (rename old new) s) = true.
Proof.
  intros Hsh Hblind.
  assert (Hnode : forall n, every p n = true -> every p (rename old new n) = true).
  { intros n.
    induction n as [t|t|name attrs cls kids IH] using node_induction; intros Hp;
      [exact Hp | exact Hp |].
    rewrite rename_tag, every_tag.
    rewrite every_tag in Hp. apply andb_prop in Hp. destruct Hp as [Hn Hkids].
    rewrite (Hsh _ attrs cls _ kids), Hblind, Hn. cbn [andb].
    unfold throughout in *. clear Hn.
    induction IH as [|k rest Hk _ IHrest]; [reflexivity|].
    cbn [forallb] in Hkids. apply andb_prop in Hkids. destruct Hkids as [H1 H2].
    cbn [map forallb]. now rewrite (Hk H1), (IHrest H2). }
  unfold throughout.
  induction s as [|k rest IH]; [reflexivity|].
  cbn [forallb map]. intros H. apply andb_prop in H. destruct H as [H1 H2].
  now rewrite (Hnode k H1), (IH H2).
Qed.

(** After a renaming no element has the old name. *)
Lemma rename_leaves_none (old new : string) (s : soup) :
  old <> new ->
  throughout (fun x => negb (named [old] x)) (map (rename old new) s) = true.
Proof.
  intros Hne.
  assert (Hnode : forall n, every (fun x => negb (named [old] x)) (rename old new n) = true).
  { intros n.
    induction n as [t|t|name attrs cls kids IH] using node_induction;
      [reflexivity | reflexivity |].
    rewrite rename_tag, every_tag. cbn [named existsb].
    assert (E : String.eqb (if String.eqb name old then new else name) old = false).
    { destruct (String.eqb_spec name old) as [->|Hn].
      - apply String.eqb_neq. congruence.
      - now apply String.eqb_neq. }
    rewrite E. cbn [orb negb andb].
    unfold throughout. induction IH as [|k rest Hk _ IHrest]; [reflexivity|].
    cbn [map forallb]. now rewrite Hk, IHrest. }
  unfold throughout. induction s as [|k rest IH]; [reflexivity|].
  cbn [map forallb]. now rewrite Hnode, IH.
Qed.

Lemma shallow_not (p : node -> bool) : shallow p -> shallow (fun x => negb (p x)).
Proof. intros H name attrs cls kids kids'. now rewrite (H name attrs cls kids kids'). Qed.

Lemma blind_not (old new : string) (p : node -> bool) :
  blind_to old new p -> blind_to old new (fun x => negb (p x)).
Proof. intros H name attrs cls kids. now rewrite H. Qed.

Lemma shallow_plain_comment : shallow plain_comment.
Proof. intros name attrs cls kids kids'. reflexivity. Qed.

Lemma shallow_inline_script : shallow inline_script.
Proof. intros name attrs cls kids kids'. reflexivity. Qed.

Lemma shallow_needless_meta : shallow needless_meta.
Proof. intros name attrs cls kids kids'. reflexivity. Qed.

Lemma shallow_named (names : list string) : shallow (named names).
Proof. intros name attrs cls kids kids'. reflexivity. Qed.

(** A renaming between two names outside [names] does not change
    [named names]. *)
Lemma blind_named (old new : string) (names : list string) :
  existsb (String.eqb old) names = false ->
  existsb (String.eqb new) names = false ->
  blind_to old new (named names).
Proof.
  intros Ho Hn name attrs cls kids. cbn [named].
  destruct (String.eqb_spec name old) as [->|_]; [|reflexivity].
  now rewrite Ho, Hn.
Qed.

Lemma blind_plain_comment (old new : string) : blind_to old new plain_comment.
Proof. intros name attrs cls kids. reflexivity. Qed.

Lemma blind_inline_script (old new : string) :
  existsb (String.eqb old) ["script"] = false ->
  existsb (String.eqb new) ["script"] = false ->
  blind_to old new inline_script.
Proof.
  intros Ho Hn name attrs cls kids. unfold inline_script.
  now rewrite (blind_named old new ["script"] Ho Hn name attrs cls kids).
Qed.

Lemma blind_needless_meta (old new : string) :
  existsb (String.eqb old) ["meta"] = false ->
  existsb (String.eqb new) ["meta"] = false ->
  blind_to old new needless_meta.
Proof.
  intros Ho Hn name attrs cls kids. unfold needless_meta.
  now rewrite (blind_named old new ["meta"] Ho Hn name attrs cls kids).
Qed.

(** The name a [div] is given is one [semantic_conversion] leaves alone. *)
Lemma semantic_name_fixed (name : string) (attrs : list (string * string))
      (cls : option (list string)) :
  semantic_name (semantic_name name attrs cls) attrs cls = semantic_name name attrs cls.
Proof.
  unfold semantic_name.
  destruct (String.eqb_spec name "div") as [->|Hne].
  - destruct (first_match keyword_table (class_text cls) (id_text attrs)) as [target|] eqn:E.
    + pose proof (first_match_not_div _ _ _ E) as Hd.
      apply String.eqb_neq in Hd. now rewrite Hd.
    + now rewrite String.eqb_refl.
  - apply String.eqb_neq in Hne. now rewrite Hne.
Qed.

End TreeFacts.

(** X8.  Whatever the tree, [clean_html] leaves in it no comment without a
    structural marker, no [script] without a [src], no [meta] other than a
    charset, [viewport], [description] or Open Graph one, and no element
    named [b] or [i]. *)
Theorem clean_html_leaves_clean (s : soup) : throughout cleaned (clean_html s) = true.
Proof.
  unfold cleaned.
  rewrite !throughout_and. unfold clean_html.
  set (s1 := flat_map (prune plain_comment) s).
  set (s2 := flat_map (prune empty_tag) s1).
  set (s3 := flat_map (prune inline_script) s2).
  set (s4 := flat_map (prune needless_meta) s3).
  set (s5 := map (rename "b" "strong") s4).
  assert (H1 : throughout (fun x => negb (plain_comment x)) s4 = true).
  { do 3 (apply pass_keeps; [apply shallow_not, shallow_plain_comment|]).
    apply pass_leaves_none, shallow_plain_comment. }
  assert (H3 : throughout (fun x => negb (inline_script x)) s4 = true).
  { apply pass_keeps; [apply shallow_not, shallow_inline_script|].
    apply pass_leaves_none, shallow_inline_script. }
  assert (H4 : throughout (fun x => negb (needless_meta x)) s4 = true).
  { apply pass_leaves_none, shallow_needless_meta. }
  repeat (apply andb_true_intro; split).
  - do 2 (apply rename_keeps;
          [apply shallow_not, shallow_plain_comment
          | apply blind_not, blind_plain_comment |]).
    exact H1.
  - do 2 (apply rename_keeps;
          [apply shallow_not, shallow_inline_script
          | apply blind_not, blind_inline_script; reflexivity |]).
    exact H3.
  - do 2 (apply rename_keeps;
          [apply shallow_not, shallow_needless_meta
          | apply blind_not, blind_needless_meta; reflexivity |]).
    exact H4.
  - assert (Hb : throughout (fun x => negb (named ["b"] x)) (map (rename "i" "em") s5) = true).
    { apply rename_keeps;
        [apply shallow_not, shallow_named
        | apply blind_not, blind_named; reflexivity
        | apply rename_leaves_none; discriminate]. }
    assert (Hi : throughout (fun x => negb (named ["i"] x)) (map (rename "i" "em") s5) = true).
    { apply rename_leaves_none. discriminate. }
    rewrite (throughout_ext _ (fun x => negb (named ["b"] x) && negb (named ["i"] x))).
    + now rewrite throughout_and, Hb, Hi.
    + intros [t|t|name attrs cls kids]; [reflexivity | reflexivity |].
      cbn [named existsb]. now rewrite !orb_false_r, negb_orb.
Qed.

(** X9.  [semantic_conversion] is idempotent: a second run changes
    nothing, since no name it gives is [div]. *)
Theorem semantic_conversion_idempotent (s : soup) :
  semantic_conversion (semantic_conversion s) = semantic_conversion s.
Proof.
  unfold semantic_conversion. rewrite map_map. apply map_ext. intros n.
  induction n as [t|t|name attrs cls kids IH] using node_induction;
    [reflexivity | reflexivity |].
  rewrite !convert_name, semantic_name_fixed. f_equal.
  rewrite map_map. induction IH as [|k rest Hk _ IHrest]; [reflexivity|].
  cbn [map]. now rewrite Hk, IHrest.
Qed.

(** X10.  [semantic_conversion] changes names of elements and nothing
    else: with the names blanked, the tree after is the tree before (same
    nodes in the same order, same attributes, classes, texts and
    comments). *)
Theorem semantic_conversion_names_only (s : soup) :
  map anonymous (semantic_conversion s) = map anonymous s.
Proof.
  unfold semantic_conversion. rewrite map_map. apply map_ext. intros n.
  induction n as [t|t|name attrs cls kids IH] using node_induction;
    [reflexivity | reflexivity |].
  rewrite convert_name. cbn [anonymous]. f_equal.
  rewrite map_map. induction IH as [|k rest Hk _ IHrest]; [reflexivity|].
  cbn [map]. now rewrite Hk, IHrest.
Qed.
(* ================================================================== *)
(** * extract_style_tags: what is left in the tree *)
(* ================================================================== *)

Section StylelessFacts.

Lemma get_del (key : string) (attrs : list (string * string)) :
  get key (del key attrs) = None.
Proof.
  unfold del. induction attrs as [|[k v] rest IH]; [reflexivity|].
  cbn [List.filter fst]. destruct (String.eqb k key) eqn:E; cbn [negb]; [exact IH|].
  cbn [get]. now rewrite E.
Qed.

Lemma style_text_del (attrs : list (string * string)) :
  style_text (del "style" attrs) = None.
Proof. unfold style_text. now rewrite get_del. Qed.

Lemma restyled_tag (name : string) (attrs : list (string * string))
      (cls : option (list string)) (kids : list node) :
  restyled (Tag name attrs cls kids)
  = match style_text attrs with
    | Some sc => Tag name (del "style" attrs)
                     (Some (class_list cls ++ [class_name sc])) (map restyled kids)
    | None => Tag name attrs cls (map restyled kids)
    end.
Proof. reflexivity. Qed.

(** The rewritten tree has no style text left, and the names it had. *)
Lemma restyled_styleless (n : node) :
  every (fun x => negb (named ["style"] x)) n = true ->
  every styleless (restyled n) = true.
Proof.
  induction n as [t|t|name attrs cls kids IH] using node_induction; intros H;
    [reflexivity | reflexivity |].
  rewrite every_tag in H. apply andb_prop in H. destruct H as [Hn Hkids].
  assert (Hrest : throughout styleless (map restyled kids) = true).
  { unfold throughout in *. clear Hn.
    induction IH as [|k rest Hk _ IHrest]; [reflexivity|].
    cbn [forallb] in Hkids. apply andb_prop in Hkids. destruct Hkids as [H1 H2].
    cbn [map forallb]. now rewrite (Hk H1), (IHrest H2). }
  rewrite restyled_tag. cbn [named] in Hn.
  destruct (style_text attrs) as [sc|] eqn:E; rewrite every_tag, Hrest, andb_true_r;
    unfold styleless; cbn [named]; rewrite Hn; cbn [andb].
  - now rewrite style_text_del.
  - now rewrite E.
Qed.

(** On a tree without styles the three loops find nothing to do. *)
Lemma styleless_fixed (n : node) :
  every styleless n = true ->
  style_strings n = [] /\ prune (named ["style"]) n = [n]
  /\ restyled n = n /\ style_texts n = [].
Proof.
  induction n as [t|t|name attrs cls kids IH] using node_induction; intros H;
    [now repeat split | now repeat split |].
  rewrite every_tag in H. apply andb_prop in H. destruct H as [Hn Hkids].
  unfold styleless in Hn. apply andb_prop in Hn. destruct Hn as [Hname Htext].
  apply negb_true_iff in Hname.
  destruct (style_text attrs) as [sc|] eqn:E; [discriminate Htext|].
  assert (Hall : flat_map style_strings kids = []
                 /\ flat_map (prune (named ["style"])) kids = kids
                 /\ map restyled kids = kids /\ flat_map style_texts kids = []).
  { unfold throughout in Hkids. clear Hname Htext E.
    induction IH as [|k rest Hk _ IHrest]; [now repeat split|].
    cbn [forallb] in Hkids. apply andb_prop in Hkids. destruct Hkids as [H1 H2].
    destruct (Hk H1) as [A1 [A2 [A3 A4]]]. destruct (IHrest H2) as [B1 [B2 [B3 B4]]].
    cbn [flat_map map]. now rewrite A1, A2, A3, A4, B1, B2, B3, B4. }
  destruct Hall as [A1 [A2 [A3 A4]]].
  repeat split.
  - cbn [style_strings]. cbn [named existsb] in Hname. rewrite orb_false_r in Hname.
    now rewrite Hname.
  - now rewrite prune_tag, Hname, A2.
  - now rewrite restyled_tag, E, A3.
  - cbn [style_texts]. now rewrite E, A4.
Qed.

Lemma styleless_soup_fixed (s : soup) :
  throughout styleless s = true ->
  flat_map style_strings s = [] /\ flat_map (prune (named ["style"])) s = s
  /\ map restyled s = s /\ flat_map style_texts s = [].
Proof.
  unfold throughout. induction s as [|k rest IH]; [now repeat split|].
  cbn [forallb]. intros H. apply andb_prop in H. destruct H as [H1 H2].
  destruct (styleless_fixed k H1) as [A1 [A2 [A3 A4]]].
  destruct (IH H2) as [B1 [B2 [B3 B4]]].
  cbn [flat_map map]. now rewrite A1, A2, A3, A4, B1, B2, B3, B4.
Qed.

Lemma extract_style_tags_tree (s : soup) :
  snd (extract_style_tags s) = map restyled (flat_map (prune (named ["style"])) s).
Proof. unfold extract_style_tags. now rewrite for_each_inline_styles. Qed.

Lemma extract_style_tags_styleless (s : soup) :
  throughout styleless s = true -> extract_style_tags s = (EmptyString, s).
Proof.
  intros H. destruct (styleless_soup_fixed s H) as [A1 [A2 [A3 A4]]].
  unfold extract_style_tags. rewrite A1, A2, for_each_inline_styles, A3, A4.
  reflexivity.
Qed.

Lemma extract_style_tags_leaves (s : soup) :
  throughout styleless (snd (extract_style_tags s)) = true.
Proof.
  rewrite extract_style_tags_tree.
  pose proof (pass_leaves_none (named ["style"]) s (shallow_named ["style"])) as H.
  unfold throughout in *.
  induction (flat_map (prune (named ["style"])) s) as [|k rest IH]; [reflexivity|].
  cbn [forallb] in H. apply andb_prop in H. destruct H as [H1 H2].
  cbn [map forallb]. now rewrite (restyled_styleless k H1), (IH H2).
Qed.

End StylelessFacts.

(** X11.  In the tree [extract_style_tags] returns there is no [<style>]
    element, and no element with a [style] attribute other than an empty or
    white-space one (which the loop skips and leaves in place). *)
Theorem extract_style_tags_leaves_styleless (s : soup) :
  throughout styleless (snd (extract_style_tags s)) = true.
Proof. apply extract_style_tags_leaves. Qed.

(** X12.  Run on the tree it has returned, [extract_style_tags] returns an
    empty stylesheet and the same tree: the classes [inline_<h>] given by
    the first run stay as they are. *)
Theorem extract_style_tags_again (s : soup) :
  extract_style_tags (snd (extract_style_tags s))
  = (EmptyString, snd (extract_style_tags s)).
Proof. apply extract_style_tags_styleless, extract_style_tags_leaves. Qed.
(* ================================================================== *)
(** * optimize_css: sheets without repeated selectors *)
(* ================================================================== *)

Section DistinctSelectors.

Lemma record_rule_new (selector : string) (style : style_decl) (seen : rule_dict) :
  ~ In selector (keys seen) ->
  record_rule selector style seen = seen ++ [(selector, style)].
Proof.
  unfold keys. induction seen as [|[sel st] rest IH]; intros Hn; [reflexivity|].
  cbn [map fst] in Hn. cbn [record_rule app].
  destruct (String.eqb_spec sel selector) as [->|Hne].
  - exfalso. apply Hn. now left.
  - rewrite IH; [reflexivity|]. intros Hin. apply Hn. now right.
Qed.

Lemma keys_entries (sheet : list css_rule) :
  keys (entries sheet) = style_selectors sheet.
Proof.
  unfold keys, entries, style_selectors.
  induction sheet as [|[sel st|t txt] rest IH]; [reflexivity| |exact IH].
  cbn [flat_map app map fst]. now rewrite IH.
Qed.

Lemma collect_distinct (sheet : list css_rule) (seen : rule_dict) :
  NoDup (keys seen ++ style_selectors sheet) ->
  fold_left collect sheet seen = seen ++ entries sheet.
Proof.
  revert seen. induction sheet as [|[sel st|t txt] rest IH]; intros seen Hnd.
  - cbn. now rewrite app_nil_r.
  - cbn [fold_left collect]. unfold style_selectors in Hnd.
    cbn [flat_map app] in Hnd. fold (style_selectors rest) in Hnd.
    assert (Hnew : ~ In sel (keys seen)).
    { intros Hin. apply NoDup_remove_2 in Hnd. apply Hnd, in_or_app. now left. }
    rewrite (record_rule_new sel st seen Hnew), IH.
    + unfold entries. cbn [flat_map app]. now rewrite <- app_assoc.
    + unfold keys in *. rewrite map_app, <- app_assoc. exact Hnd.
  - cbn [fold_left collect]. apply IH. exact Hnd.
Qed.

Lemma rules_of_entries (sheet : list css_rule) :
  map (fun kv => StyleRule (fst kv) (snd kv)) (entries sheet) = style_rules sheet.
Proof.
  unfold entries, style_rules.
  induction sheet as [|[sel st|t txt] rest IH]; [reflexivity| |exact IH].
  cbn [flat_map app map List.filter fst snd]. now rewrite IH.
Qed.

Lemma optimized_rules_NoDup (sheet : list css_rule) :
  NoDup (style_selectors (optimized_rules sheet)).
Proof. rewrite style_selectors_optimized. apply first_seen_NoDup. Qed.

Lemma style_rules_optimized (sheet : list css_rule) :
  style_rules (optimized_rules sheet) = optimized_rules sheet.
Proof.
  unfold optimized_rules, style_rules.
  induction (fold_left collect sheet []) as [|kv rest IH]; [reflexivity|].
  cbn [map List.filter]. now rewrite IH.
Qed.

End DistinctSelectors.

(** X13.  When no two style rules of the sheet have the same selector, the
    loop of [optimize_css] merges nothing: the sheet it rebuilds is the
    style rules of the input, each as it was and in the same order. *)
Theorem optimize_css_distinct_selectors (sheet : list css_rule) :
  NoDup (style_selectors sheet) -> optimized_rules sheet = style_rules sheet.
Proof.
  intros Hnd. unfold optimized_rules.
  rewrite (collect_distinct sheet [] Hnd). apply rules_of_entries.
Qed.

Lemma optimize_css_distinct_selectors_witness :
  optimized_rules [StyleRule ".a" [Property "color" "red" false];
                   OtherRule 4 "@media print{}";
                   StyleRule ".b" [Property "color" "red" true;
                                   Property "color" "blue" false]]
  = [StyleRule ".a" [Property "color" "red" false];
     StyleRule ".b" [Property "color" "red" true; Property "color" "blue" false]].
Proof.
  apply (optimize_css_distinct_selectors
           [StyleRule ".a" [Property "color" "red" false];
            OtherRule 4 "@media print{}";
            StyleRule ".b" [Property "color" "red" true;
                            Property "color" "blue" false]]).
  cbn. repeat constructor; cbn; intuition discriminate.
Defined.

(** X14.  The loop of [optimize_css] is idempotent on sheets: run on the
    rules it has produced, it produces them again. *)
Theorem optimized_rules_idempotent (sheet : list css_rule) :
  optimized_rules (optimized_rules sheet) = optimized_rules sheet.
Proof.
  unfold optimized_rules at 1.
  rewrite (collect_distinct _ [] (optimized_rules_NoDup sheet)). cbn [app].
  rewrite rules_of_entries.
  apply style_rules_optimized.
Qed.
(* ================================================================== *)
(** * extract_css_base64_images: the files and the untouched text *)
(* ================================================================== *)

Section FileFacts.

Lemma read_file_exists (path : string) (fs : files) :
  path_exists path fs = match read_file path fs with Some _ => true | None => false end.
Proof.
  unfold path_exists. induction fs as [|[p c] rest IH]; [reflexivity|].
  cbn [existsb fst read_file]. destruct (String.eqb p path); [reflexivity|exact IH].
Qed.

Lemma read_file_others (path other : string) (fs : files) :
  other <> path ->
  read_file path (List.filter (fun f => negb (String.eqb (fst f) other)) fs)
  = read_file path fs.
Proof.
  intros Hne. induction fs as [|[p c] rest IH]; [reflexivity|].
  cbn [List.filter fst read_file]. destruct (String.eqb_spec p other) as [->|Hp]; cbn [negb].
  - rewrite IH. destruct (String.eqb_spec other path) as [E|_]; [now elim Hne|reflexivity].
  - cbn [read_file]. now rewrite IH.
Qed.

Lemma read_file_saved (path other : string) (content : bytes) (fs : files) :
  read_file path (snd (save_file other content fs))
  = if String.eqb other path then Some content else read_file path fs.
Proof.
  unfold save_file. cbn [snd read_file].
  destruct (String.eqb_spec other path) as [E|Hne]; [reflexivity|].
  now apply read_file_others.
Qed.

Lemma only_adds_refl (fresh : string -> bytes -> Prop) (fs : files) :
  only_adds fresh fs fs.
Proof. intros path. now destruct (read_file path fs). Qed.

Lemma only_adds_trans (fresh : string -> bytes -> Prop) (a b c : files) :
  only_adds fresh a b -> only_adds fresh b c -> only_adds fresh a c.
Proof.
  intros Hab Hbc path. specialize (Hab path). specialize (Hbc path).
  destruct (read_file path a) as [x|].
  - now rewrite Hab in Hbc.
  - destruct (read_file path b) as [y|].
    + now rewrite Hbc.
    + exact Hbc.
Qed.

Lemma only_adds_save (fresh : string -> bytes -> Prop) (path : string)
      (content : bytes) (fs : files) :
  path_exists path fs = false -> fresh path content ->
  only_adds fresh fs (snd (save_file path content fs)).
Proof.
  intros Hnew Hfresh other. rewrite read_file_saved, read_file_exists in *.
  destruct (String.eqb_spec path other) as [<-|Hne].
  - destruct (read_file path fs); [discriminate|exact Hfresh].
  - now destruct (read_file other fs).
Qed.

Lemma str_startswith_append (p s : string) : Py.startswith p (p ++ s) = true.
Proof.
  induction p as [|a p IH]; [reflexivity|].
  cbn [String.append Py.startswith]. now rewrite Ascii.eqb_refl, IH.
Qed.

Lemma path_join_stem (dir stem rest : string) :
  Py.startswith (path_join dir stem) (path_join dir (stem ++ rest)) = true.
Proof.
  unfold path_join. destruct (negb (truthy (Some dir))).
  - apply str_startswith_append.
  - destruct (Py.startswith "/" (Py.rev dir)).
    + rewrite <- str_append_assoc. apply str_startswith_append.
    + rewrite <- !str_append_assoc. apply str_startswith_append.
Qed.

End FileFacts.

Section ScanFacts.

(** Where the pattern cannot start, [scan] copies the text. *)
Lemma lit_prefix (p s : string) :
  Py.startswith p s = false -> @Re.lit p s = None.
Proof.
  revert s. induction p as [|a p IH]; intros [|b s]; cbn; try discriminate; try reflexivity.
  destruct (Ascii.eqb a b); [apply IH|reflexivity].
Qed.

Lemma scan_without (r : Re.regex) (s : string) :
  (forall n, Re.rmatch r (Py.drop n s) = None) ->
  Re.scan r 0 s = map Re.Plain (list_ascii_of_string s).
Proof.
  induction s as [|c s IH]; intros Hno.
  - pose proof (Hno 0) as H0. cbn in H0. cbn [Re.scan]. now rewrite H0.
  - pose proof (Hno 0) as H0. cbn [Py.drop] in H0. cbn [Re.scan]. rewrite H0.
    cbn [list_ascii_of_string map]. f_equal. apply IH.
    intros n. exact (Hno (S n)).
Qed.

Lemma contains_drop (p s : string) (n : nat) :
  Py.contains p s = false -> Py.startswith p (Py.drop n s) = false.
Proof.
  revert s. induction n as [|n IH]; intros s H.
  - destruct s; cbn [Py.contains Py.drop] in *; apply orb_false_iff in H; tauto.
  - destruct s as [|c s]; cbn [Py.contains Py.drop] in *; apply orb_false_iff in H.
    + tauto.
    + apply IH. tauto.
Qed.

Lemma concat_chars (s : string) :
  String.concat EmptyString (map (fun c => String c EmptyString) (list_ascii_of_string s)) = s.
Proof.
  induction s as [|c s IH]; [reflexivity|].
  cbn [list_ascii_of_string map]. rewrite str_concat_cons, IH. reflexivity.
Qed.

End ScanFacts.

Section CssImageFiles.

Variable hash : string -> Z.
Variable cfg : config.

Lemma repl_only_adds (m : Re.hit) (fs : files) :
  only_adds (image_file cfg "css_img_") fs (snd (repl hash cfg m fs)).
Proof.
  unfold repl. destruct (Re.rmatch CssImages.data_url _) as [m'|];
    [|apply only_adds_refl].
  unfold St.bind, St.ret.
  destruct (path_exists _ fs) eqn:Hex; cbn [negb]; [apply only_adds_refl|].
  destruct (safe_b64decode _) as [[|b img_bytes]|]; try apply only_adds_refl.
  match goal with
  | |- only_adds _ _ (snd (let (_, _) := save_file ?p ?c fs in _)) =>
      change (only_adds (image_file cfg "css_img_") fs (snd (save_file p c fs)))
  end.
  apply only_adds_save; [exact Hex|]. split; [|discriminate].
  unfold css_img_filename. apply path_join_stem.
Qed.

Lemma pieces_only_adds (pieces : list Re.piece) (fs : files) :
  only_adds (image_file cfg "css_img_") fs
    (snd (St.for_each (fun p => match p with
                                | Re.Plain c => St.ret (String c EmptyString)
                                | Re.Found m => repl hash cfg m
                                end) pieces fs)).
Proof.
  revert fs. induction pieces as [|p rest IH]; intros fs; [apply only_adds_refl|].
  cbn [St.for_each]. unfold St.bind at 1.
  destruct p as [c|m].
  - unfold St.ret at 1. specialize (IH fs). unfold St.bind at 1.
    destruct (St.for_each _ rest fs) as [ys fs']. exact IH.
  - pose proof (repl_only_adds m fs) as H1.
    destruct (repl hash cfg m fs) as [y fs1]. cbn [snd] in H1.
    specialize (IH fs1). unfold St.bind at 1.
    destruct (St.for_each _ rest fs1) as [ys fs']. cbn [snd St.ret] in *.
    exact (only_adds_trans _ _ _ _ H1 IH).
Qed.

Lemma plain_pieces (s : string) (fs : files) :
  St.for_each (fun p => match p with
                        | Re.Plain c => St.ret (String c EmptyString)
                        | Re.Found m => repl hash cfg m
                        end) (map Re.Plain (list_ascii_of_string s)) fs
  = (map (fun c => String c EmptyString) (list_ascii_of_string s), fs).
Proof.
  induction s as [|c s IH]; [reflexivity|].
  cbn [list_ascii_of_string map St.for_each]. unfold St.bind, St.ret in *.
  now rewrite IH.
Qed.

Lemma css_images_only_adds (css : string) (fs : files) :
  only_adds (image_file cfg "css_img_") fs
            (snd (extract_css_base64_images hash cfg css fs)).
Proof.
  unfold extract_css_base64_images, St.bind.
  pose proof (pieces_only_adds (Re.scan CssImages.pattern 0 css) fs) as H.
  destruct (St.for_each _ _ fs) as [pieces fs']. exact H.
Qed.

End CssImageFiles.

(** X15.  [extract_css_base64_images] never overwrites or removes a file:
    whatever was on disk keeps its content, and each file it adds is in the
    images directory, is named [css_img_...] and is not empty. *)
Theorem extract_css_base64_images_only_adds (hash : string -> Z) (cfg : config)
        (css : string) (fs : files) :
  only_adds (image_file cfg "css_img_") fs
            (snd (extract_css_base64_images hash cfg css fs)).
Proof. apply css_images_only_adds. Qed.

(** X16.  A stylesheet in which [url(] does not occur comes back as it is,
    and no file is written. *)
Theorem extract_css_base64_images_no_url (hash : string -> Z) (cfg : config)
        (css : string) (fs : files) :
  Py.contains "url(" css = false ->
  extract_css_base64_images hash cfg css fs = (css, fs).
Proof.
  intros Hno. unfold extract_css_base64_images, St.bind.
  rewrite (scan_without CssImages.pattern css).
  - rewrite plain_pieces. unfold St.ret. now rewrite concat_chars.
  - intros n. unfold Re.rmatch, CssImages.pattern. cbn [Re.run].
    now rewrite (lit_prefix _ _ (contains_drop _ _ n Hno)).
Qed.

Lemma extract_css_base64_images_no_url_witness :
  extract_css_base64_images (fun _ => 7%Z) default_config
    "a{color:red;background:URL (x.png)}" [("componetes/index.html", [60%Z])]
  = ("a{color:red;background:URL (x.png)}", [("componetes/index.html", [60%Z])]).
Proof.
  apply (extract_css_base64_images_no_url (fun _ => 7%Z) default_config
           "a{color:red;background:URL (x.png)}" [("componetes/index.html", [60%Z])]).
  reflexivity.
Defined.
(* ================================================================== *)
(** * extract_images *)
(* ================================================================== *)

Section IoFacts.

Context {A B : Type}.
Variable f : A -> Io.M B.

Lemma for_each_cons (x : A) (rest : list A) (fs : files) :
  Io.for_each f (x :: rest) fs
  = match f x fs with
    | (Return y, fs1) =>
        match Io.for_each f rest fs1 with
        | (Return ys, fs2) => (Return (y :: ys), fs2)
        | (Raise e, fs2) => (Raise e, fs2)
        end
    | (Raise e, fs1) => (Raise e, fs1)
    end.
Proof.
  cbn [Io.for_each]. unfold Io.bind at 1. destruct (f x fs) as [[y|e] fs1]; [|reflexivity].
  unfold Io.bind at 1. destruct (Io.for_each f rest fs1) as [[ys|e] fs2]; reflexivity.
Qed.


(** When the loop raises, one of its steps has. *)
Lemma for_each_raises (Q : A -> exn -> Prop) (l : list A) :
  Forall (fun x => forall fs fs' e, f x fs = (Raise e, fs') -> Q x e) l ->
  forall fs fs' e, Io.for_each f l fs = (Raise e, fs') -> exists x, In x l /\ Q x e.
Proof.
  intros Hall. induction Hall as [|x rest Hx _ IH]; intros fs fs' e H.
  - discriminate H.
  - rewrite for_each_cons in H. specialize (Hx fs).
    destruct (f x fs) as [[y|e1] fs1].
    + specialize (IH fs1).
      destruct (Io.for_each f rest fs1) as [[ys|e2] fs2]; [discriminate H|].
      inversion H; subst. destruct (IH _ _ eq_refl) as [z [Hin Hz]].
      exists z. split; [now right|exact Hz].
    + inversion H; subst. exists x. split; [now left|exact (Hx _ _ eq_refl)].
Qed.

(** When the loop returns, every step has, each from the files the one
    before left. *)
Lemma for_each_returns (R : files -> files -> Prop) (Q : files -> A -> B -> Prop)
      (l : list A) :
  (forall fs, R fs fs) ->
  (forall a b c, R a b -> R b c -> R a c) ->
  (forall a b x y, R a b -> Q a x y -> Q b x y) ->
  Forall (fun x => forall fs fs' y, f x fs = (Return y, fs') -> R fs fs' /\ Q fs' x y) l ->
  forall fs fs' ys, Io.for_each f l fs = (Return ys, fs') ->
                    R fs fs' /\ Forall2 (Q fs') l ys.
Proof.
  intros Hrefl Htrans Hmono Hall. induction Hall as [|x rest Hx _ IH]; intros fs fs' ys H.
  - inversion H; subst. split; [apply Hrefl|constructor].
  - rewrite for_each_cons in H. specialize (Hx fs).
    destruct (f x fs) as [[y|e1] fs1]; [|discriminate H].
    specialize (IH fs1).
    destruct (Io.for_each f rest fs1) as [[zs|e2] fs2]; [|discriminate H].
    inversion H; subst. destruct (Hx _ _ eq_refl) as [R1 Q1].
    destruct (IH _ _ eq_refl) as [R2 Q2].
    split; [exact (Htrans _ _ _ R1 R2)|]. constructor; [|exact Q2].
    exact (Hmono _ _ _ _ R2 Q1).
Qed.

End IoFacts.

Section ImageFacts.

Variable hash : string -> Z.
Variable requests_get : string -> result response.
Variable write_error : string -> option exn.
Variable cfg : config.

Lemma images_in_tag (name : string) (attrs : list (string * string))
      (cls : option (list string)) (kids : list node) (fs : files) :
  (images_in hash requests_get write_error cfg) (Tag name attrs cls kids) fs
  = match (if named ["img"] (Tag name attrs cls kids) then (process_img hash requests_get write_error cfg) attrs
           else Io.ret attrs) fs with
    | (Return attrs', fs1) =>
        match Io.for_each (images_in hash requests_get write_error cfg) kids fs1 with
        | (Return kids', fs2) => (Return (Tag name attrs' cls kids'), fs2)
        | (Raise e, fs2) => (Raise e, fs2)
        end
    | (Raise e, fs1) => (Raise e, fs1)
    end.
Proof.
  cbn [images_in]. unfold Io.bind at 1.
  destruct ((if named ["img"] (Tag name attrs cls kids) then (process_img hash requests_get write_error cfg) attrs
             else Io.ret attrs) fs) as [[attrs'|e] fs1]; [|reflexivity].
  unfold Io.bind at 1.
  destruct (Io.for_each (images_in hash requests_get write_error cfg) kids fs1) as [[kids'|e] fs2]; reflexivity.
Qed.

(** *** The attributes *)

Lemma del_set_attr (key value : string) (attrs : list (string * string)) :
  get key attrs <> None -> del key (set_attr key value attrs) = del key attrs.
Proof.
  unfold del. induction attrs as [|[k v] rest IH]; intros H; [now elim H|].
  cbn [get] in H. cbn [set_attr]. destruct (String.eqb k key) eqn:E.
  - cbn [List.filter fst]. now rewrite E.
  - cbn [List.filter fst]. rewrite E. cbn [negb]. now rewrite (IH H).
Qed.

Lemma get_set_attr (key value : string) (attrs : list (string * string)) :
  get key (set_attr key value attrs) = Some value.
Proof.
  induction attrs as [|[k v] rest IH]; cbn [set_attr get].
  - now rewrite String.eqb_refl.
  - destruct (String.eqb k key) eqn:E; cbn [get]; now rewrite E.
Qed.

Lemma process_img_outcome (attrs : list (string * string)) (fs : files) :
  step_outcome hash requests_get write_error cfg attrs fs ((process_img hash requests_get write_error cfg) attrs fs).
Proof.
  unfold process_img.
  destruct (get "src" attrs) as [src|] eqn:Hsrc; [|apply step_skip].
  destruct (truthy (Some src)); cbn [negb]; [|apply step_skip].
  destruct (Py.startswith "data:image" src).
  - destruct (safe_b64decode _) as [[|b img_bytes]|]; try apply step_skip.
    unfold store. destruct (write_error _) as [e|] eqn:Hw.
    + exact (step_unwritable _ _ _ _ _ _ _ _ _ Hw).
    + now apply step_store with (src := src).
  - destruct (Py.startswith "http" src) eqn:Hhttp; [|apply step_skip].
    destruct (fst (download_image_safe requests_get cfg src None))
      as [[[|b content]|]|e] eqn:Hd; try apply step_skip.
    + unfold store. destruct (write_error _) as [e|] eqn:Hw.
      * exact (step_unwritable _ _ _ _ _ _ _ _ _ Hw).
      * now apply step_store with (src := src).
    + now apply step_raise with (src := src).
Qed.

(** *** The files *)





(** *** The exceptions *)

Lemma image_failure_app (a b : list (option string)) (e : exn) :
  image_failure requests_get write_error cfg a e
  \/ image_failure requests_get write_error cfg b e ->
  image_failure requests_get write_error cfg (a ++ b) e.
Proof.
  intros [[[url [Hin H]]|Hw]|[[url [Hin H]]|Hw]]; try (now right);
    left; exists url; (split; [|exact H]); apply in_or_app; [now left|now right].
Qed.

Lemma image_failure_below (kids : list node) (k : node) (e : exn) :
  In k kids -> image_failure requests_get write_error cfg (img_srcs_in k) e ->
  image_failure requests_get write_error cfg (flat_map img_srcs_in kids) e.
Proof.
  intros Hin [[url [Hu H]]|Hw]; [left|now right]. exists url. split; [|exact H].
  apply in_flat_map. now exists k.
Qed.

Lemma images_in_raises (n : node) (fs fs' : files) (e : exn) :
  (images_in hash requests_get write_error cfg) n fs = (Raise e, fs') ->
  image_failure requests_get write_error cfg (img_srcs_in n) e.
Proof.
  revert fs fs' e.
  induction n as [t|t|name attrs cls kids IH] using node_induction; intros fs fs' e H;
    try discriminate H.
  rewrite images_in_tag in H. cbn [img_srcs_in]. apply image_failure_app.
  assert (Hkids : forall fs1, Io.for_each (images_in hash requests_get write_error cfg) kids fs1 = (Raise e, fs') ->
                              image_failure requests_get write_error cfg
                                            (flat_map img_srcs_in kids) e).
  { intros fs1 Hk.
    destruct (for_each_raises (images_in hash requests_get write_error cfg)
                (fun k e => image_failure requests_get write_error cfg (img_srcs_in k) e)
                kids IH fs1 fs' e Hk) as [k [Hin Hr]].
    exact (image_failure_below kids k e Hin Hr). }
  destruct (named ["img"] (Tag name attrs cls kids)).
  - destruct (process_img_outcome attrs fs)
      as [|src e1 Hsrc Hhttp Hd|src ext e1 Hw|src ext content _ _].
    + right. destruct (Io.for_each (images_in hash requests_get write_error cfg) kids fs) as [[kids'|e2] fs2] eqn:Hk;
        [discriminate H|]. inversion H; subst. exact (Hkids _ Hk).
    + left. left. inversion H; subst. exists src. split; [now left|]. now split.
    + left. right. inversion H; subst.
      exists (path_join (IMAGES_DIR cfg) (img_name hash src ext)).
      split; [|exact Hw]. unfold img_name. apply path_join_stem.
    + right.
      match type of H with
      | match Io.for_each _ kids ?fs1 with _ => _ end = _ =>
          destruct (Io.for_each (images_in hash requests_get write_error cfg) kids fs1) as [[kids'|e2] fs2] eqn:Hk
      end; [discriminate H|]. inversion H; subst. exact (Hkids _ Hk).
  - right. unfold Io.ret in H.
    destruct (Io.for_each (images_in hash requests_get write_error cfg) kids fs) as [[kids'|e2] fs2] eqn:Hk;
      [discriminate H|]. inversion H; subst. exact (Hkids _ Hk).
Qed.

Lemma download_never_request_exception (url : string) (m : option Z) :
  fst (download_image_safe requests_get cfg url m) <> Raise RequestException.
Proof.
  unfold download_image_safe. destruct (download_try _ _ _) as [[c|[]] n]; discriminate.
Qed.

(** *** The tree *)

Lemma map_agree {X Y : Type} (g : X -> Y) (l l' : list X) :
  Forall2 (fun x x' => g x' = g x) l l' -> map g l' = map g l.
Proof.
  induction 1 as [|x x' rest rest' E _ IH]; [reflexivity|].
  cbn [map]. now rewrite E, IH.
Qed.

Lemma images_in_shape (n : node) (fs fs' : files) (n' : node) :
  (images_in hash requests_get write_error cfg) n fs = (Return n', fs') -> without_img_src n' = without_img_src n.
Proof.
  revert fs fs' n'.
  induction n as [t|t|name attrs cls kids IH] using node_induction; intros fs fs' n' H;
    try (inversion H; subst; reflexivity).
  rewrite images_in_tag in H.
  assert (Hkids : forall fs1 kids', Io.for_each (images_in hash requests_get write_error cfg) kids fs1 = (Return kids', fs') ->
                                    map without_img_src kids' = map without_img_src kids).
  { intros fs1 kids' Hk.
    destruct (for_each_returns (images_in hash requests_get write_error cfg) (fun _ _ => True)
                (fun _ k k' => without_img_src k' = without_img_src k) kids
                (fun _ => I) (fun _ _ _ _ _ => I) (fun _ _ _ _ _ q => q)) with
      (fs := fs1) (fs' := fs') (ys := kids') as [_ Hall]; [|exact Hk|].
    - refine (Forall_impl _ _ IH). intros k Hk' a b y Hy. split; [exact I|exact (Hk' _ _ _ Hy)].
    - exact (map_agree _ _ _ Hall). }
  cbn [without_img_src named]. cbn [named] in H.
  destruct (existsb (String.eqb name) ["img"]) eqn:Himg.
  - destruct (process_img_outcome attrs fs)
      as [|src e1 Hsrc Hhttp Hd|src ext e1 Hw|src ext content Hsrc _].
    + destruct (Io.for_each (images_in hash requests_get write_error cfg) kids fs) as [[kids'|e2] fs2] eqn:Hk;
        [|discriminate H]. inversion H; subst. cbn [without_img_src named].
      now rewrite Himg, (Hkids _ _ Hk).
    + discriminate H.
    + discriminate H.
    + match type of H with
      | match Io.for_each _ kids ?fs1 with _ => _ end = _ =>
          destruct (Io.for_each (images_in hash requests_get write_error cfg) kids fs1) as [[kids'|e2] fs2] eqn:Hk
      end; [|discriminate H]. inversion H; subst. cbn [without_img_src named].
      rewrite Himg, (Hkids _ _ Hk), del_set_attr; [reflexivity|].
      now rewrite Hsrc.
  - unfold Io.ret in H.
    destruct (Io.for_each (images_in hash requests_get write_error cfg) kids fs) as [[kids'|e2] fs2] eqn:Hk;
      [|discriminate H]. inversion H; subst. cbn [without_img_src named].
    now rewrite Himg, (Hkids _ _ Hk).
Qed.

(** *** The files the new [src] values name *)

Lemma save_file_exists (path other : string) (content : bytes) (fs : files) :
  path_exists path (snd (save_file other content fs))
  = String.eqb other path || path_exists path fs.
Proof.
  rewrite !read_file_exists, read_file_saved.
  now destruct (String.eqb other path).
Qed.

Lemma src_settled_later (a b : files) (l l' : list (option string)) :
  keeps_paths a b -> Forall2 (src_settled cfg a) l l' -> Forall2 (src_settled cfg b) l l'.
Proof.
  intros Hab. induction 1 as [|x y rest rest' [E|[name [E Hex]]] _ IH];
    constructor; try exact IH.
  - now left.
  - right. exists name. split; [exact E|exact (Hab _ Hex)].
Qed.

Lemma src_settled_same (fs : files) (l : list (option string)) :
  Forall2 (src_settled cfg fs) l l.
Proof. induction l; constructor; [now left|assumption]. Qed.

Lemma Forall2_flat_map {X Y Z : Type} (R : Y -> Z -> Prop) (g : X -> list Y)
      (h : X -> list Z) (l l' : list X) :
  Forall2 (fun x x' => Forall2 R (g x) (h x')) l l' ->
  Forall2 R (flat_map g l) (flat_map h l').
Proof.
  induction 1 as [|x x' rest rest' Hx _ IH]; [constructor|].
  cbn [flat_map]. now apply Forall2_app.
Qed.

Lemma process_img_settled (attrs attrs' : list (string * string)) (fs fs' : files) :
  (process_img hash requests_get write_error cfg) attrs fs = (Return attrs', fs') ->
  keeps_paths fs fs' /\ src_settled cfg fs' (get "src" attrs) (get "src" attrs').
Proof.
  intros H.
  destruct (process_img_outcome attrs fs) as [|src e _ _ _|src ext e _|src ext content _ _].
  - inversion H; subst. split; [now intros p|now left].
  - discriminate H.
  - discriminate H.
  - assert (E1 : attrs' = set_attr "src" ("images/" ++ img_name hash src ext) attrs)
      by congruence.
    assert (E2 : fs' = snd (save_file (path_join (IMAGES_DIR cfg) (img_name hash src ext))
                                      content fs)) by congruence.
    clear H. subst attrs' fs'. split.
    + intros p Hp. rewrite save_file_exists, Hp. apply orb_true_r.
    + right. exists (img_name hash src ext). split.
      * now rewrite get_set_attr.
      * rewrite save_file_exists, String.eqb_refl. reflexivity.
Qed.

Lemma images_in_settled (n : node) (fs fs' : files) (n' : node) :
  (images_in hash requests_get write_error cfg) n fs = (Return n', fs') ->
  keeps_paths fs fs'
  /\ Forall2 (src_settled cfg fs') (img_srcs_in n) (img_srcs_in n').
Proof.
  revert fs fs' n'.
  induction n as [t|t|name attrs cls kids IH] using node_induction; intros fs fs' n' H;
    try (inversion H; subst; split; [now intros p|constructor]).
  rewrite images_in_tag in H.
  assert (Hkids : forall fs1 kids',
             Io.for_each (images_in hash requests_get write_error cfg) kids fs1 = (Return kids', fs') ->
             keeps_paths fs1 fs'
             /\ Forall2 (src_settled cfg fs') (flat_map img_srcs_in kids)
                        (flat_map img_srcs_in kids')).
  { intros fs1 kids' Hk.
    destruct (for_each_returns (images_in hash requests_get write_error cfg) keeps_paths
                (fun fs k k' => Forall2 (src_settled cfg fs) (img_srcs_in k) (img_srcs_in k'))
                kids (fun _ _ Hp => Hp) (fun _ _ _ Hab Hbc p Hp => Hbc p (Hab p Hp))
                (fun a b x y Hab Hq => src_settled_later a b _ _ Hab Hq) IH
                fs1 fs' kids' Hk) as [Hkeep Hall].
    split; [exact Hkeep|]. now apply Forall2_flat_map. }
  cbn [named] in H.
  destruct (existsb (String.eqb name) ["img"]) eqn:Himg.
  - destruct ((process_img hash requests_get write_error cfg) attrs fs) as [[attrs'|e1] fs1] eqn:Hstep; [|discriminate H].
    destruct (process_img_settled _ _ _ _ Hstep) as [K1 S1].
    destruct (Io.for_each (images_in hash requests_get write_error cfg) kids fs1) as [[kids'|e2] fs2] eqn:Hk;
      [|discriminate H]. inversion H; subst.
    destruct (Hkids _ _ Hk) as [K2 S2].
    split; [intros p Hp; exact (K2 p (K1 p Hp))|].
    cbn [img_srcs_in named]. rewrite Himg. cbn [app]. constructor; [|exact S2].
    destruct S1 as [E|[nm [E Hex]]]; [now left|].
    right. exists nm. split; [exact E|exact (K2 _ Hex)].
  - unfold Io.ret in H.
    destruct (Io.for_each (images_in hash requests_get write_error cfg) kids fs) as [[kids'|e2] fs2] eqn:Hk;
      [|discriminate H]. inversion H; subst.
    destruct (Hkids _ _ Hk) as [K2 S2]. split; [exact K2|].
    cbn [img_srcs_in named]. rewrite Himg. exact S2.
Qed.

Lemma extract_images_shape (s s' : soup) (fs fs' : files) :
  extract_images hash requests_get write_error cfg s fs = (Return s', fs') ->
  map without_img_src s' = map without_img_src s.
Proof.
  intros H. unfold extract_images in H.
  destruct (for_each_returns (images_in hash requests_get write_error cfg) (fun _ _ => True)
              (fun _ k k' => without_img_src k' = without_img_src k) s
              (fun _ => I) (fun _ _ _ _ _ => I) (fun _ _ _ _ _ q => q))
    with (fs := fs) (fs' := fs') (ys := s') as [_ Hall]; [|exact H|].
  - apply Forall_forall. intros k _ a b y Hy. split; [exact I|].
    exact (images_in_shape _ _ _ _ Hy).
  - exact (map_agree _ _ _ Hall).
Qed.


End ImageFacts.

(** X17.  [extract_images] changes nothing but the [src] of [img] elements:
    with those attributes taken away, the tree it returns is the tree it
    was given (same elements, names, classes, texts, other attributes). *)
Theorem extract_images_touches_src_only (hash : string -> Z)
        (requests_get : string -> result response)
        (write_error : string -> option exn) (cfg : config)
        (s s' : soup) (fs fs' : files) :
  extract_images hash requests_get write_error cfg s fs = (Return s', fs') ->
  map without_img_src s' = map without_img_src s.
Proof. apply extract_images_shape. Qed.

Lemma extract_images_touches_src_only_witness :
  map without_img_src
      [Tag "div" []%list None
         [Tag "img" [("alt", "a"); ("src", "images/img_7.gif")] None []%list;
          NavigableString "text";
          Tag "img" [("src", "images/img_7.jpeg")] (Some ["wide"]) []%list;
          Tag "img" [("src", "local.png")] None []%list]]
  = map without_img_src sample_page.
Proof.
  apply (extract_images_touches_src_only (fun _ => 7%Z) png_server sound_disk default_config
           sample_page _ []%list
           [("componetes/images/img_7.jpeg", [137; 80; 78]%Z);
            ("componetes/images/img_7.gif", [71; 73; 70]%Z)]).
  vm_compute. reflexivity.
Defined.

(** X18.  [extract_images] raises in two ways only.  Either the download
    of one of its images raised the exception: it comes from
    [download_image_safe] called on the [src] of an [img] that begins with
    [http], and is never a [RequestException].  Or an image file could not
    be written, and the exception is the one [save_file] raised. *)
Theorem extract_images_raises (hash : string -> Z)
        (requests_get : string -> result response)
        (write_error : string -> option exn) (cfg : config)
        (s : soup) (fs fs' : files) (e : exn) :
  extract_images hash requests_get write_error cfg s fs = (Raise e, fs') ->
  (download_raised requests_get cfg (img_srcs s) e /\ e <> RequestException)
  \/ write_failed write_error cfg e.
Proof.
  intros H. unfold extract_images in H.
  destruct (for_each_raises (images_in hash requests_get write_error cfg)
              (fun k e => image_failure requests_get write_error cfg (img_srcs_in k) e) s)
    with (fs := fs) (fs' := fs') (e := e) as [k [Hin [[url [Hu [Hhttp Hd]]]|Hw]]];
    [|exact H| |now right].
  - apply Forall_forall. intros k _ a b e1 He.
    exact (images_in_raises hash requests_get write_error cfg _ _ _ _ He).
  - left. split.
    + exists url. split; [|now split]. apply in_flat_map. now exists k.
    + intros ->. exact (download_never_request_exception requests_get cfg url None Hd).
Qed.

Lemma extract_images_raises_witness :
  (download_raised odd_server default_config (img_srcs sample_page) ValueError
   /\ ValueError <> RequestException)
  \/ write_failed sound_disk default_config ValueError.
Proof.
  apply (extract_images_raises (fun _ => 7%Z) odd_server sound_disk default_config
           sample_page []%list [("componetes/images/img_7.gif", [71; 73; 70]%Z)]
           ValueError).
  vm_compute. reflexivity.
Defined.


(** X20.  When [extract_images] returns, each [img] has the [src] it had or
    a [src] of the form [images/<name>] whose file [<name>] is then in the
    images directory; the [img] elements are the same in number and order. *)
Theorem extract_images_src_on_disk (hash : string -> Z)
        (requests_get : string -> result response)
        (write_error : string -> option exn) (cfg : config)
        (s s' : soup) (fs fs' : files) :
  extract_images hash requests_get write_error cfg s fs = (Return s', fs') ->
  Forall2 (src_settled cfg fs') (img_srcs s) (img_srcs s').
Proof.
  intros H. unfold extract_images in H.
  destruct (for_each_returns (images_in hash requests_get write_error cfg) keeps_paths
              (fun fs k k' => Forall2 (src_settled cfg fs) (img_srcs_in k) (img_srcs_in k'))
              s (fun _ _ Hp => Hp) (fun _ _ _ Hab Hbc p Hp => Hbc p (Hab p Hp))
              (fun a b x y Hab Hq => src_settled_later cfg a b _ _ Hab Hq))
    with (fs := fs) (fs' := fs') (ys := s') as [_ Hall]; [|exact H|].
  - apply Forall_forall. intros k _ a b y Hy.
    exact (images_in_settled hash requests_get write_error cfg _ _ _ _ Hy).
  - unfold img_srcs. now apply Forall2_flat_map.
Qed.

Lemma extract_images_src_on_disk_witness :
  Forall2 (src_settled default_config
             [("componetes/images/img_7.jpeg", [137; 80; 78]%Z);
              ("componetes/images/img_7.gif", [71; 73; 70]%Z)])
          (img_srcs sample_page)
          [Some "images/img_7.gif"; Some "images/img_7.jpeg"; Some "local.png"].
Proof.
  apply (extract_images_src_on_disk (fun _ => 7%Z) png_server sound_disk default_config
           sample_page
           [Tag "div" []%list None
              [Tag "img" [("alt", "a"); ("src", "images/img_7.gif")] None []%list;
               NavigableString "text";
               Tag "img" [("src", "images/img_7.jpeg")] (Some ["wide"]) []%list;
               Tag "img" [("src", "local.png")] None []%list]]
           []%list).
  vm_compute. reflexivity.
Defined.
(* ================================================================== *)
(** * beautify_html: the minified text *)
(* ================================================================== *)

Section MinifiedText.

Lemma erased_plain (c : ascii) (pieces : list Re.piece) :
  erased (Re.Plain c :: pieces) = String c (erased pieces).
Proof. unfold erased. cbn [map Re.render]. now rewrite str_concat_cons. Qed.

Lemma erased_found (h : Re.hit) (pieces : list Re.piece) :
  erased (Re.Found h :: pieces) = erased pieces.
Proof. unfold erased. cbn [map Re.render]. now rewrite str_concat_cons. Qed.

(** Deleting the matches of a pattern adds no character. *)
Lemma erased_keeps (keep : ascii -> bool) (r : Re.regex) (s : string) (skip : nat) :
  Py.forallb keep s = true -> Py.forallb keep (erased (Re.scan r skip s)) = true.
Proof.
  revert skip. induction s as [|c s IH]; intros skip H.
  - destruct skip; cbn [Re.scan]; [|reflexivity].
    destruct (Re.rmatch r EmptyString) as [h|]; [|reflexivity].
    destruct (String.length (Re.whole h)); reflexivity.
  - cbn [Py.forallb] in H. apply andb_prop in H. destruct H as [Hc Hs].
    destruct skip as [|n]; cbn [Re.scan]; [|now apply IH].
    destruct (Re.rmatch r (String c s)) as [h|].
    + destruct (String.length (Re.whole h)).
      * rewrite erased_found, erased_plain. cbn [Py.forallb]. now rewrite Hc, IH.
      * rewrite erased_found. now apply IH.
    + rewrite erased_plain. cbn [Py.forallb]. now rewrite Hc, IH.
Qed.

Lemma sub_erase_keeps (keep : ascii -> bool) (r : Re.regex) (s : string) :
  Py.forallb keep s = true ->
  Py.forallb keep (Re.sub r (fun _ => EmptyString) s) = true.
Proof. apply erased_keeps. Qed.

Lemma str_forallb_rev (keep : ascii -> bool) (s : string) :
  Py.forallb keep (Py.rev s) = Py.forallb keep s.
Proof.
  induction s as [|c s IH]; [reflexivity|].
  rewrite str_rev_cons, str_forallb_append, IH. cbn [Py.forallb].
  rewrite andb_true_r. apply andb_comm.
Qed.

Lemma str_forallb_lstrip (keep : ascii -> bool) (s : string) :
  Py.forallb keep s = true -> Py.forallb keep (Py.lstrip s) = true.
Proof.
  induction s as [|c s IH]; [reflexivity|]. intros H. cbn [Py.lstrip].
  destruct (Py.isspace c); [|exact H].
  cbn [Py.forallb] in H. apply andb_prop in H. now apply IH.
Qed.

Lemma str_forallb_strip (keep : ascii -> bool) (s : string) :
  Py.forallb keep s = true -> Py.forallb keep (Py.strip s) = true.
Proof.
  intros H. unfold Py.strip, Py.rstrip.
  rewrite str_forallb_rev. apply str_forallb_lstrip.
  rewrite str_forallb_rev. now apply str_forallb_lstrip.
Qed.

(** A greedy repetition hands the rest of the pattern a suffix of its
    input. *)
Lemma rep_greedy_rest {R : Type} (p : ascii -> bool) (lo : nat) (s : string)
      (k : string -> option R) (r : R) :
  Re.rep_greedy p lo s k = Some r ->
  exists rest, k rest = Some r /\ String.length rest <= String.length s.
Proof.
  revert lo. induction s as [|c s IH]; intros lo H; cbn [Re.rep_greedy] in H.
  - destruct (lo =? 0); [|discriminate H]. now exists EmptyString.
  - assert (Hstop : (if lo =? 0 then k (String c s) else None) = Some r ->
                    exists rest, k rest = Some r
                                 /\ String.length rest <= String.length (String c s)).
    { destruct (lo =? 0); [|discriminate]. intros Hk. now exists (String c s). }
    destruct (p c); [|exact (Hstop H)].
    destruct (Re.rep_greedy p (pred lo) s k) as [r'|] eqn:E; [|exact (Hstop H)].
    inversion H; subst. destruct (IH _ E) as [rest [Hk Hlen]].
    exists rest. split; [exact Hk|]. cbn [String.length]. lia.
Qed.

Lemma rep_greedy_total {R : Type} (p : ascii -> bool) (s : string)
      (k : string -> option R) :
  (forall x, k x <> None) -> Re.rep_greedy p 0 s k <> None.
Proof.
  intros Hk. induction s as [|c s IH]; cbn [Re.rep_greedy Nat.eqb pred]; [apply Hk|].
  destruct (p c); [|apply Hk].
  destruct (Re.rep_greedy p 0 s k); [discriminate|apply Hk].
Qed.

(** Where a line feed stands, [\n+] matches at least that line feed. *)
Lemma newlines_match (s : string) :
  exists h, Re.rmatch Minify.newlines_re (String Py.LF s) = Some h
            /\ String.length (Re.whole h) <> 0.
Proof.
  unfold Re.rmatch, Minify.newlines_re. cbn [Re.run Re.rep_greedy Nat.eqb pred].
  unfold Re.just at 1. rewrite Ascii.eqb_refl.
  set (k := fun s' : string => Some {| Re.whole := Re.consumed (String Py.LF s) s';
                                      Re.grps := [] |}).
  destruct (Re.rep_greedy (Re.just Py.LF) 0 s k) as [h|] eqn:E.
  - exists h. split; [reflexivity|].
    destruct (rep_greedy_rest _ _ _ _ _ E) as [rest [Hk Hlen]].
    unfold k in Hk. inversion Hk; subst. cbn [Re.whole]. unfold Re.consumed.
    cbn [String.length].
    destruct (S (String.length s) - String.length rest) as [|m] eqn:Em; [lia|].
    cbn [Py.take String.length]. discriminate.
  - exfalso. revert E. apply rep_greedy_total. intros x. unfold k. discriminate.
Qed.

Lemma newlines_erased (s : string) (skip : nat) :
  Py.forallb not_line_feed (erased (Re.scan Minify.newlines_re skip s)) = true.
Proof.
  revert skip. induction s as [|c s IH]; intros skip.
  - destruct skip; cbn [Re.scan]; [|reflexivity].
    destruct (Re.rmatch Minify.newlines_re EmptyString) as [h|]; [|reflexivity].
    destruct (String.length (Re.whole h)); reflexivity.
  - destruct skip as [|n]; cbn [Re.scan]; [|apply IH].
    destruct (Ascii.eqb_spec c Py.LF) as [->|Hc].
    + destruct (newlines_match s) as [h [-> Hlen]].
      destruct (String.length (Re.whole h)); [now elim Hlen|].
      rewrite erased_found. apply IH.
    + assert (Hk : not_line_feed c = true).
      { unfold not_line_feed. now destruct (Ascii.eqb_spec c Py.LF). }
      destruct (Re.rmatch Minify.newlines_re (String c s)) as [h|].
      * destruct (String.length (Re.whole h)).
        -- rewrite erased_found, erased_plain. cbn [Py.forallb]. now rewrite Hk, IH.
        -- rewrite erased_found. apply IH.
      * rewrite erased_plain. cbn [Py.forallb]. now rewrite Hk, IH.
Qed.

End MinifiedText.

(** X21.  In mode [minify] the text [beautify_html] returns has no line
    feed, whatever the serializer produced: the [\n+] pass deletes them
    all and the later steps only delete. *)
Theorem beautify_html_minify_no_line_feed (prettify decode : soup -> string) (s : soup) :
  Py.forallb not_line_feed (beautify_html prettify decode s "minify") = true.
Proof.
  unfold beautify_html. cbn [String.eqb Ascii.eqb Bool.eqb].
  unfold Minify.passes, Minify.replace.
  apply str_forallb_strip. do 2 apply sub_erase_keeps.
  apply newlines_erased.
Qed.
(* ================================================================== *)
(** * The extraction stage and the pipeline *)
(* ================================================================== *)

Section StageFacts.

Lemma get_del_other (key other : string) (attrs : list (string * string)) :
  key <> other -> get key (del other attrs) = get key attrs.
Proof.
  intros Hne. unfold del. induction attrs as [|[k v] rest IH]; [reflexivity|].
  cbn [List.filter fst get]. destruct (String.eqb_spec k other) as [->|Hk]; cbn [negb].
  - rewrite IH. destruct (String.eqb_spec other key) as [E|_]; [now elim Hne|reflexivity].
  - cbn [get]. now rewrite IH.
Qed.

Lemma styleless_without_src (n : node) :
  every styleless (without_img_src n) = every styleless n.
Proof.
  induction n as [t|t|name attrs cls kids IH] using node_induction;
    [reflexivity | reflexivity |].
  cbn [without_img_src]. rewrite !every_tag. f_equal.
  - unfold styleless, style_text. cbn [named].
    destruct (existsb (String.eqb name) ["img"]); [|reflexivity].
    rewrite get_del_other; [reflexivity|discriminate].
  - unfold throughout. induction IH as [|k rest Hk _ IHrest]; [reflexivity|].
    cbn [map forallb]. now rewrite Hk, IHrest.
Qed.

Lemma throughout_styleless_without_src (s : soup) :
  throughout styleless (map without_img_src s) = throughout styleless s.
Proof.
  unfold throughout. induction s as [|k rest IH]; [reflexivity|].
  cbn [map forallb]. now rewrite styleless_without_src, IH.
Qed.





End StageFacts.

(** X22.  When [ExtractionStage] returns, the tree it leaves has no
    [<style>] element and no style text: [extract_images], which runs
    last, does not bring back what [extract_style_tags] took out. *)
Theorem ExtractionStage_leaves_styleless (hash : string -> Z)
        (requests_get : string -> result response)
        (write_error : string -> option exn) (cfg : config)
        (s s' : soup) (css : string) (fs fs' : files) :
  ExtractionStage hash requests_get write_error cfg s fs = (Return (css, s'), fs') ->
  throughout styleless s' = true.
Proof.
  unfold ExtractionStage. intros H.
  pose proof (extract_style_tags_leaves s) as Hs.
  destruct (extract_style_tags s) as [css0 s1]. cbn [snd] in Hs.
  destruct (extract_css_base64_images hash cfg css0 fs) as [css1 fs1].
  unfold Io.bind, Io.ret in H.
  destruct (extract_images hash requests_get write_error cfg s1 fs1) as [[s2|e] fs2] eqn:E;
    [|discriminate H].
  inversion H; subst.
  rewrite <- throughout_styleless_without_src,
    (extract_images_shape _ _ _ _ _ _ _ _ E), throughout_styleless_without_src.
  exact Hs.
Qed.

Lemma ExtractionStage_leaves_styleless_witness :
  throughout styleless
    [Tag "div" []%list (Some ["inline_9dd4e461"])
       [Tag "img" [("src", "images/img_7.gif")] None []%list]] = true.
Proof.
  eapply (ExtractionStage_leaves_styleless (fun _ => 7%Z) png_server sound_disk default_config
           [Tag "style" []%list None [NavigableString "p{}"];
            Tag "div" [("style", "x")] None
              [Tag "img" [("src", "data:image/gif;base64,R0lG")] None []%list]]
           _ _ []%list [("componetes/images/img_7.gif", [71; 73; 70]%Z)]).
  vm_compute. reflexivity.
Defined.


(** X24.  [Pipeline.execute] runs the stages in the order they were added:
    a pipeline made of two lists of stages gives what the second list
    gives on the context the first list returns, and raises what the first
    list raises without running the second. *)
Theorem Pipeline_execute_app {C : Type} (first second : list (@Pipeline.stage C))
        (context : C) :
  Pipeline.execute (first ++ second) context
  = and_then (Pipeline.execute first context) (Pipeline.execute second)
  /\ forall st, Pipeline.execute (Pipeline.add_stage first st) context
                = and_then (Pipeline.execute first context) st.
Proof.
  assert (Happ : forall (a b : list (@Pipeline.stage C)) ctx,
             Pipeline.execute (a ++ b) ctx
             = and_then (Pipeline.execute a ctx) (Pipeline.execute b)).
  { induction a as [|st a IH]; intros b ctx; [reflexivity|].
    cbn [app Pipeline.execute]. destruct (st ctx) as [c|e]; [apply IH|reflexivity]. }
  split; [apply Happ|]. intros st. unfold Pipeline.add_stage. rewrite Happ.
  destruct (Pipeline.execute first context) as [c|e]; [|reflexivity].
  cbn [and_then Pipeline.execute]. now destruct (st c).
Qed.
